(** * Project Management Agent: the turn controller, the operation set and
      the ClickUp client, embedded from [sample_agent/agent.py] and
      [server/clickup_service.py].

    Python strings are Rocq [string]s read as UTF-8, dictionaries with string
    keys are [gmap string _], unbounded Python integers are [Z]. *)

From Stdlib Require Import ZArith NArith Ascii String.
From stdpp Require Import gmap strings list fin_maps.

Local Open Scope string_scope.
Local Open Scope Z_scope.

(** ** Python values *)

Module Py.

(** A [float] is kept as the exact decimal it was read from; no rounding to
    binary64 is performed, only the question whether it rounds to zero is
    answered (see [float_nonzero]). *)
Inductive pyfloat : Type :=
  | FNaN
  | FInf (neg : bool)
  | FDec (neg : bool) (digits : N) (exp10 : Z).

#[warnings="-register-all"]
Inductive value : Type :=
  | VNone
  | VBool (b : bool)
  | VInt (z : Z)
  | VFloat (f : pyfloat)
  | VStr (s : string)
  | VList (l : list value)
  | VDict (d : gmap string value).

(** [digits * 10^exp10] rounds (to nearest, ties to even) to a nonzero
    binary64 exactly when it is strictly above [2^-1075]. *)
Definition float_nonzero (f : pyfloat) : bool :=
  match f with
  | FNaN | FInf _ => true
  | FDec _ d e =>
      if (d =? 0)%N then false
      else if 0 <=? e then true
      else 10 ^ (- e) <? Z.of_N d * 2 ^ 1075
  end.

(** Python truth value testing, as used by [if x:] and [not x]. *)
Definition truthy (v : value) : bool :=
  match v with
  | VNone => false
  | VBool b => b
  | VInt z => negb (z =? 0)
  | VFloat f => float_nonzero f
  | VStr s => negb (String.eqb s "")
  | VList l => match l with [] => false | _ => true end
  | VDict d => negb (bool_decide (size d = 0%nat))
  end.

Definition str_truthy (s : string) : bool :=
  match s with EmptyString => false | String _ _ => true end.

(** Truthiness of an [Optional[T]] argument: [None] is falsy, otherwise the
    truth value of the payload. *)
Definition opt_truthy {A} (t : A -> bool) (o : option A) : bool :=
  match o with None => false | Some a => t a end.

Definition int_truthy (z : Z) : bool := negb (z =? 0).

(** [v is not None] *)
Definition not_None (v : value) : bool :=
  match v with VNone => false | _ => true end.

(** Exceptions that the modelled code raises or lets through, and the two
    error reports of the dispatch step that are no exception of the tool
    body: arguments that fail the tool's schema ([ValidationError]) and a
    requested name that is no registered tool ([InvalidToolName]). *)
Inductive exn : Type :=
  | ValueError (msg : string)
  | JSONDecodeError
  | HTTPError (status : Z)
  | ValidationError (field : string)
  | InvalidToolName (requested : string)
  | ModelError (msg : string)
  | RecursionError.

End Py.
Export Py.

(** ** The standard library's JSON decoder ([json.loads] on a [str]) *)

Module Json.

(** Outcome of one scanning function: the input is no JSON text ([Stop],
    Python's [StopIteration] or [JSONDecodeError]), the decoder raised
    another exception ([Throws]), a value was decoded and [rest] is what
    follows it, or the recursion budget of the model was used up
    ([Exhausted], which [loads_fuel_enough] excludes). *)
Inductive scan (A : Type) : Type :=
  | Exhausted
  | Stop
  | Throws (e : exn)
  | Got (a : A) (rest : string).
Arguments Exhausted {A}.
Arguments Stop {A}.
Arguments Throws {A} e.
Arguments Got {A} a rest.

(** [sys.get_int_max_str_digits()]: the interpreter's default limit on the
    number of digits of a decimal text that [int] converts. *)
Definition int_max_str_digits : nat := 4300.

(** [sys.getrecursionlimit()]: the interpreter's default. The decoder
    enters one level of recursion for every array and object it opens; the
    levels that are really available to it are fewer by the frames already
    in use, and differ between interpreter versions. *)
Definition recursion_limit : nat := 1000.

Definition is_ws (c : ascii) : bool :=
  match c with
  | " "%char | "009"%char | "010"%char | "013"%char => true
  | _ => false
  end.

(** [WHITESPACE.match(s, idx).end()] *)
Fixpoint skip_ws (s : string) : string :=
  match s with
  | String c r => if is_ws c then skip_ws r else s
  | EmptyString => s
  end.

Definition digit_of (c : ascii) : option N :=
  let n := N_of_ascii c in
  if ((48 <=? n) && (n <=? 57))%N then Some (n - 48)%N else None.

Definition hex_of (c : ascii) : option N :=
  let n := N_of_ascii c in
  if ((48 <=? n) && (n <=? 57))%N then Some (n - 48)%N
  else if ((65 <=? n) && (n <=? 70))%N then Some (n - 55)%N
  else if ((97 <=? n) && (n <=? 102))%N then Some (n - 87)%N
  else None.

(** The longest run of decimal digits at the head of [s]. *)
Fixpoint take_digits (s : string) : list N * string :=
  match s with
  | String c r =>
      match digit_of c with
      | Some d => let '(ds, r') := take_digits r in (d :: ds, r')
      | None => ([], s)
      end
  | EmptyString => ([], s)
  end.

Definition digits_value (ds : list N) : N :=
  fold_left (fun a d => (10 * a + d)%N) ds 0%N.

Definition signed (neg : bool) (n : N) : Z :=
  if neg then - Z.of_N n else Z.of_N n.

(** [NUMBER_RE]: an optional minus sign and either a single 0 or a run of
    digits that starts with 1-9; then, optionally, a dot and one or more
    digits; then, optionally, e or E, an optional sign and one or more
    digits. Each part returns what it matched and the text after it; an
    optional part that does not match consumes nothing. *)
Definition opt_minus (s : string) : bool * string :=
  match s with
  | String c r => if (c =? "-")%char then (true, r) else (false, s)
  | EmptyString => (false, s)
  end.

Definition int_part (s : string) : option (list N * string) :=
  match s with
  | String c r =>
      match digit_of c with
      | Some d => Some (if (d =? 0)%N then ([0%N], r) else take_digits s)
      | None => None
      end
  | EmptyString => None
  end.

Definition frac_part (s : string) : list N * string :=
  match s with
  | String c r =>
      if (c =? ".")%char then
        match take_digits r with
        | ([], _) => ([], s)
        | (ds, r') => (ds, r')
        end
      else ([], s)
  | EmptyString => ([], s)
  end.

Definition opt_sign (s : string) : bool * string :=
  match s with
  | String c r =>
      if (c =? "-")%char then (true, r)
      else if (c =? "+")%char then (false, r)
      else (false, s)
  | EmptyString => (false, s)
  end.

Definition exp_part (s : string) : option Z * string :=
  match s with
  | String c r =>
      if (c =? "e")%char || (c =? "E")%char then
        let '(eneg, r1) := opt_sign r in
        match take_digits r1 with
        | ([], _) => (None, s)
        | (ds, r2) => (Some (signed eneg (digits_value ds)), r2)
        end
      else (None, s)
  | EmptyString => (None, s)
  end.

(** [parse_int], that is [int]: a text of more than
    [int_max_str_digits] digits (the sign does not count) is refused with
    [ValueError]. *)
Definition parse_int (neg : bool) (ip : list N) : exn + value :=
  if (int_max_str_digits <? length ip)%nat
  then inl (ValueError
              "Exceeds the limit (4300 digits) for integer string conversion")
  else inr (VInt (signed neg (digits_value ip))).

(** [match_number], followed by [parse_int] when the text has neither
    fraction nor exponent and by [parse_float] otherwise. *)
Definition match_number (s : string) : option ((exn + value) * string) :=
  let '(neg, s1) := opt_minus s in
  match int_part s1 with
  | None => None
  | Some (ip, s2) =>
      let '(fp, s3) := frac_part s2 in
      let '(ex, s4) := exp_part s3 in
      match fp, ex with
      | [], None => Some (parse_int neg ip, s4)
      | _, _ =>
          Some (inr (VFloat (FDec neg (digits_value (ip ++ fp))
                               (default 0 ex - Z.of_nat (length fp)))), s4)
      end
  end.

(** UTF-8 bytes of a code point (surrogates are encoded like any other
    three-byte code point, so that distinct Python strings stay distinct). *)
Definition byte (n : N) : ascii := ascii_of_N n.

Definition utf8 (cp : N) : string :=
  (if cp <? 128 then String (byte cp) ""
   else if cp <? 2048 then
     String (byte (192 + cp / 64)) (String (byte (128 + cp mod 64)) "")
   else if cp <? 65536 then
     String (byte (224 + cp / 4096))
       (String (byte (128 + (cp / 64) mod 64))
          (String (byte (128 + cp mod 64)) ""))
   else
     String (byte (240 + cp / 262144))
       (String (byte (128 + (cp / 4096) mod 64))
          (String (byte (128 + (cp / 64) mod 64))
             (String (byte (128 + cp mod 64)) ""))))%N.

(** [_decode_uXXXX]: four hexadecimal digits. *)
Definition decode_uXXXX (s : string) : option (N * string) :=
  match s with
  | String a (String b (String c (String d r))) =>
      match hex_of a, hex_of b, hex_of c, hex_of d with
      | Some x, Some y, Some z, Some w =>
          Some (((x * 16 + y) * 16 + z) * 16 + w, r)%N
      | _, _, _, _ => None
      end
  | _ => None
  end.

(** One backslash escape; [s] starts after the backslash. *)
Definition scan_escape (s : string) : option (string * string) :=
  match s with
  | String c r =>
      match c with
      | "034"%char => Some (String "034" "", r)
      | "\"%char => Some ("\", r)
      | "/"%char => Some ("/", r)
      | "b"%char => Some (String "008" "", r)
      | "f"%char => Some (String "012" "", r)
      | "n"%char => Some (String "010" "", r)
      | "r"%char => Some (String "013" "", r)
      | "t"%char => Some (String "009" "", r)
      | "u"%char =>
          match decode_uXXXX r with
          | None => None
          | Some (uni, r1) =>
              if ((55296 <=? uni) && (uni <=? 56319))%N then
                match r1 with
                | String "\" (String "u" r2) =>
                    match decode_uXXXX r2 with
                    | None => None
                    | Some (uni2, r3) =>
                        if ((56320 <=? uni2) && (uni2 <=? 57343))%N then
                          Some (utf8 (65536 + (uni - 55296) * 1024
                                      + (uni2 - 56320))%N, r3)
                        else Some (utf8 uni, r1)
                    end
                | _ => Some (utf8 uni, r1)
                end
              else Some (utf8 uni, r1)
          end
      | _ => None
      end
  | EmptyString => None
  end.

(** [scanstring(s, end, strict=True)]; [s] starts after the opening quote.
    The recursion is on [n], a bound on the characters still to be read. *)
Fixpoint scanstring_go (n : nat) (s : string) (acc : string) : scan string :=
  match n with
  | O => Exhausted
  | S n' =>
      match s with
      | EmptyString => Stop
      | String c r =>
          if (c =? "034")%char then Got acc r
          else if (c =? "\")%char then
            match scan_escape r with
            | Some (piece, r') => scanstring_go n' r' (acc +:+ piece)
            | None => Stop
            end
          else if (N_of_ascii c <? 32)%N then Stop
          else scanstring_go n' r (acc +:+ String c "")
      end
  end.

Definition scanstring (s : string) : scan string :=
  scanstring_go (S (String.length s)) s "".

(** [s[idx:idx+len(p)] == p] *)
Fixpoint strip_prefix (p s : string) : option string :=
  match p, s with
  | EmptyString, _ => Some s
  | String a p', String b s' =>
      if Ascii.eqb a b then strip_prefix p' s' else None
  | String _ _, EmptyString => None
  end.

(** The literals and numbers of [scan_once], in the order it tries them. *)
Definition scan_atom (s : string) : option ((exn + value) * string) :=
  match strip_prefix "null" s with
  | Some r => Some (inr VNone, r)
  | None =>
  match strip_prefix "true" s with
  | Some r => Some (inr (VBool true), r)
  | None =>
  match strip_prefix "false" s with
  | Some r => Some (inr (VBool false), r)
  | None =>
  match match_number s with
  | Some res => Some res
  | None =>
  match strip_prefix "NaN" s with
  | Some r => Some (inr (VFloat FNaN), r)
  | None =>
  match strip_prefix "Infinity" s with
  | Some r => Some (inr (VFloat (FInf false)), r)
  | None =>
  match strip_prefix "-Infinity" s with
  | Some r => Some (inr (VFloat (FInf true)), r)
  | None => None
  end end end end end end end.

(** [scan_once], [JSONArray] and [JSONObject]. [array_items] starts at an
    element of a non-empty array, [object_pairs] right after the opening
    quote of a key. [depth] is the number of levels of recursion that are
    left: opening an array or an object takes one, and with none left
    raises [RecursionError]. *)
Fixpoint scan_once (fuel : nat) (depth : nat) (s : string) : scan value :=
  match fuel with
  | O => Exhausted
  | S fuel' =>
      match s with
      | EmptyString => Stop
      | String nextchar r =>
          if (nextchar =? "034")%char then
            match scanstring r with
            | Got str r' => Got (VStr str) r'
            | Stop => Stop
            | Throws e => Throws e
            | Exhausted => Exhausted
            end
          else if (nextchar =? "{")%char then
            match depth with
            | O => Throws RecursionError
            | S depth' =>
                match skip_ws r with
                | EmptyString => Stop
                | String c r' =>
                    if (c =? "}")%char then Got (VDict ∅) r'
                    else if (c =? "034")%char then
                      object_pairs fuel' depth' r' ∅
                    else Stop
                end
            end
          else if (nextchar =? "[")%char then
            match depth with
            | O => Throws RecursionError
            | S depth' =>
                match skip_ws r with
                | EmptyString => Stop
                | String c r' =>
                    if (c =? "]")%char then Got (VList []) r'
                    else array_items fuel' depth' (String c r') []
                end
            end
          else
            match scan_atom s with
            | Some (inr v, r') => Got v r'
            | Some (inl e, _) => Throws e
            | None => Stop
            end
      end
  end
with array_items (fuel : nat) (depth : nat) (s : string)
    (values : list value) : scan value :=
  match fuel with
  | O => Exhausted
  | S fuel' =>
      match scan_once fuel' depth s with
      | Got v r =>
          match skip_ws r with
          | EmptyString => Stop
          | String c r' =>
              if (c =? "]")%char then Got (VList (values ++ [v])) r'
              else if (c =? ",")%char then
                array_items fuel' depth (skip_ws r') (values ++ [v])
              else Stop
          end
      | Stop => Stop
      | Throws e => Throws e
      | Exhausted => Exhausted
      end
  end
with object_pairs (fuel : nat) (depth : nat) (s : string)
    (pairs : gmap string value) : scan value :=
  match fuel with
  | O => Exhausted
  | S fuel' =>
      match scanstring s with
      | Got key r =>
          match skip_ws r with
          | EmptyString => Stop
          | String c r1 =>
              if (c =? ":")%char then
                match scan_once fuel' depth (skip_ws r1) with
                | Got v r2 =>
                    match skip_ws r2 with
                    | EmptyString => Stop
                    | String d r3 =>
                        if (d =? "}")%char then
                          Got (VDict (<[key:=v]> pairs)) r3
                        else if (d =? ",")%char then
                          match skip_ws r3 with
                          | EmptyString => Stop
                          | String q r4 =>
                              if (q =? "034")%char then
                                object_pairs fuel' depth r4
                                  (<[key:=v]> pairs)
                              else Stop
                          end
                        else Stop
                    end
                | Stop => Stop
                | Throws e => Throws e
                | Exhausted => Exhausted
                end
              else Stop
          end
      | Stop => Stop
      | Throws e => Throws e
      | Exhausted => Exhausted
      end
  end.

(** [JSONDecoder.decode]: leading whitespace, one value, trailing
    whitespace, then the end of the input. *)
Definition decode (fuel : nat) (depth : nat) (s : string) : scan value :=
  match scan_once fuel depth (skip_ws s) with
  | Got v r =>
      match skip_ws r with
      | EmptyString => Got v ""
      | String _ _ => Stop
      end
  | Stop => Stop
  | Throws e => Throws e
  | Exhausted => Exhausted
  end.

(** [json.loads(s)]: the decoded value; [JSONDecodeError] for a text that
    is no JSON; [ValueError] for an integer of too many digits and
    [RecursionError] for arrays and objects nested too deeply, each raised
    where the decoder meets it. *)
Definition loads (s : string) : exn + value :=
  match decode (2 * String.length s + 2) recursion_limit s with
  | Got v _ => inr v
  | Throws e => inl e
  | _ => inl JSONDecodeError
  end.

(** A scanning result that stayed within its budget, and that left less
    text than it was given when it found a value. *)
Definition within_budget {A} (c : scan A) (s : string) : Prop :=
  c <> Exhausted
  /\ forall v r, c = Got v r -> (String.length r < String.length s)%nat.

End Json.

(** ** HTTP requests and the effects of the modelled code *)

Module Http.

Inductive Method : Type := GET | POST | PUT | DELETE.

(** What [requests.get], [requests.post], [requests.put] and
    [requests.delete] are called with: the URL, the [headers=] dictionary
    and, for [post] and [put], the [json=] dictionary. *)
Record Request : Type := {
  method : Method;
  url : string;
  headers : gmap string string;
  json : option (gmap string value)
}.

Record Response : Type := {
  status_code : Z;
  text : string
}.

(** The world outside the process: [sent] is the log of the HTTP requests
    issued so far, oldest first, and [invoked] the log of the local
    operations that the dispatch step started, with their arguments. *)
Record World : Type := {
  sent : list Request;
  invoked : list (string * gmap string value)
}.

(** The world once [req] has been sent. *)
Definition after (w : World) (req : Request) : World :=
  {| sent := sent w ++ [req]; invoked := invoked w |}.

Definition M (A : Type) : Type := World -> (exn + A) * World.

Definition ret {A} (a : A) : M A := fun w => (inr a, w).
Definition raise {A} (e : exn) : M A := fun w => (inl e, w).
Definition bind {A B} (c : M A) (k : A -> M B) : M B :=
  fun w =>
    match c w with
    | (inr a, w') => k a w'
    | (inl e, w') => (inl e, w')
    end.
Definition lift {A} (r : exn + A) : M A := fun w => (r, w).

End Http.
Export Http.

Notation "x <- c ;; k" := (bind c (fun x => k))
  (at level 100, c at next level, right associativity).
Notation "c ;;; k" := (bind c (fun _ => k))
  (at level 100, right associativity).

(** ** [server/clickup_service.py] *)

Module ClickUpService.

Section Service.

(** The remote service: its answer to a request may depend on the requests
    it has already received; a transport failure is an exception. *)
Variable remote : list Request -> Request -> exn + Response.

Definition send (req : Request) : M Response :=
  fun w => (remote (sent w) req, after w req).

(** [response.raise_for_status()] *)
Definition raise_for_status (r : Response) : M unit :=
  if (400 <=? status_code r) && (status_code r <? 600)
  then raise (HTTPError (status_code r))
  else ret tt.

(** [response.json()] *)
Definition response_json (r : Response) : M value :=
  lift (Json.loads (text r)).

Definition BASE_URL : string := "https://api.clickup.com/api/v2".

(** The instance attributes set by [__init__]. *)
Record t : Type := {
  api_key : string;
  team_id : string;
  self_headers : gmap string string
}.

(** [__init__], given the process environment ([os.getenv]). *)
Definition init (environ : gmap string string) : exn + t :=
  let api_key := environ !! "CLICKUP_API_KEY" in
  let team_id := environ !! "CLICKUP_TEAM_ID" in
  match api_key with
  | Some k =>
      if str_truthy k then
        match team_id with
        | Some tid =>
            if str_truthy tid then
              inr {| api_key := k;
                     team_id := tid;
                     self_headers :=
                       <["Accept" := "application/json"]>
                       (<["Content-Type" := "application/json"]>
                        (<["Authorization" := k]> ∅)) |}
            else inl (ValueError "CLICKUP_TEAM_ID environment variable not set")
        | None => inl (ValueError "CLICKUP_TEAM_ID environment variable not set")
        end
      else inl (ValueError "CLICKUP_API_KEY environment variable not set")
  | None => inl (ValueError "CLICKUP_API_KEY environment variable not set")
  end.

(** The common tail of every method: send, [raise_for_status], [json()]. *)
Definition call (self : t) (m : Method) (u : string)
    (body : option (gmap string value)) : M value :=
  response <- send {| method := m; url := u;
                      headers := self_headers self; json := body |} ;;
  raise_for_status response ;;;
  response_json response.

Definition get_spaces (self : t) : M value :=
  let url := BASE_URL +:+ "/team/" +:+ team_id self +:+ "/space" in
  call self GET url None.

Definition get_lists (self : t) (space_id : string) : M value :=
  let url := BASE_URL +:+ "/space/" +:+ space_id +:+ "/list" in
  call self GET url None.

Definition get_tasks (self : t) (list_id : string) : M value :=
  let url := BASE_URL +:+ "/list/" +:+ list_id +:+ "/task" in
  call self GET url None.

(** [if arg: data[key] = arg] for an argument that is [None] or a [T]. *)
Definition set_if_truthy {A} (t : A -> bool) (inj : A -> value)
    (key : string) (arg : option A) (data : gmap string value)
    : gmap string value :=
  match arg with
  | Some a => if t a then <[key := inj a]> data else data
  | None => data
  end.

(** [if arg is not None: data[key] = arg] *)
Definition set_if_not_None {A} (inj : A -> value)
    (key : string) (arg : option A) (data : gmap string value)
    : gmap string value :=
  match arg with
  | Some a => <[key := inj a]> data
  | None => data
  end.

(** The same two statements for an argument that holds an arbitrary Python
    value ([VNone] is [None]). *)
Definition set_value_if_truthy (key : string) (arg : value)
    (data : gmap string value) : gmap string value :=
  if truthy arg then <[key := arg]> data else data.

Definition set_value_if_not_None (key : string) (arg : value)
    (data : gmap string value) : gmap string value :=
  match arg with
  | VNone => data
  | _ => <[key := arg]> data
  end.

(** The dictionary [data] that [create_task] builds. *)
Definition create_task_data
    (name : string)
    (description : option string)
    (due_date : option Z)
    (priority : option Z)
    (due_date_time : bool)
    (time_estimate : option Z)
    (start_date : option Z)
    (start_date_time : bool)
    (assignees : value)
    (tags : value)
    (status : option string)
    (custom_fields : value) : gmap string value :=
  let data : gmap string value :=
    <["start_date_time" := VBool start_date_time]>
    (<["due_date_time" := VBool due_date_time]>
     (<["name" := VStr name]> ∅)) in
  let data := set_if_truthy str_truthy VStr "description" description data in
  let data := set_if_truthy int_truthy VInt "due_date" due_date data in
  let data := set_if_truthy int_truthy VInt "priority" priority data in
  let data := set_if_truthy int_truthy VInt "time_estimate" time_estimate data in
  let data := set_if_truthy int_truthy VInt "start_date" start_date data in
  let data := set_value_if_truthy "assignees" assignees data in
  let data := set_value_if_truthy "tags" tags data in
  let data := set_if_truthy str_truthy VStr "status" status data in
  let data := set_value_if_truthy "custom_fields" custom_fields data in
  data.

Definition create_task (self : t)
    (list_id : string)
    (name : string)
    (description : option string)
    (due_date : option Z)
    (priority : option Z)
    (due_date_time : bool)
    (time_estimate : option Z)
    (start_date : option Z)
    (start_date_time : bool)
    (assignees : value)
    (tags : value)
    (status : option string)
    (custom_fields : value) : M value :=
  let url := BASE_URL +:+ "/list/" +:+ list_id +:+ "/task" in
  let data :=
    create_task_data name description due_date priority due_date_time
      time_estimate start_date start_date_time assignees tags status
      custom_fields in
  call self POST url (Some data).

(** The dictionary [data] that [update_task] builds. *)
Definition update_task_data
    (name : option string)
    (description : option string)
    (status : option string)
    (priority : option Z)
    (due_date : option Z)
    (due_date_time : option bool)
    (time_estimate : option Z)
    (start_date : option Z)
    (start_date_time : option bool)
    (assignees : value)
    (archived : option bool) : gmap string value :=
  let data : gmap string value := ∅ in
  let data := set_if_truthy str_truthy VStr "name" name data in
  let data := set_if_truthy str_truthy VStr "description" description data in
  let data := set_if_truthy str_truthy VStr "status" status data in
  let data := set_if_not_None VInt "priority" priority data in
  let data := set_if_not_None VInt "due_date" due_date data in
  let data := set_if_not_None VBool "due_date_time" due_date_time data in
  let data := set_if_not_None VInt "time_estimate" time_estimate data in
  let data := set_if_not_None VInt "start_date" start_date data in
  let data := set_if_not_None VBool "start_date_time" start_date_time data in
  let data := set_value_if_not_None "assignees" assignees data in
  let data := set_if_not_None VBool "archived" archived data in
  data.

Definition update_task (self : t)
    (task_id : string)
    (name : option string)
    (description : option string)
    (status : option string)
    (priority : option Z)
    (due_date : option Z)
    (due_date_time : option bool)
    (time_estimate : option Z)
    (start_date : option Z)
    (start_date_time : option bool)
    (assignees : value)
    (archived : option bool) : M value :=
  let url := BASE_URL +:+ "/task/" +:+ task_id in
  let data :=
    update_task_data name description status priority due_date due_date_time
      time_estimate start_date start_date_time assignees archived in
  call self PUT url (Some data).

Definition delete_task (self : t) (task_id : string) : M value :=
  let url := BASE_URL +:+ "/task/" +:+ task_id in
  call self DELETE url None.

Definition get_task_by_id (self : t) (task_id : string) : M value :=
  let url := BASE_URL +:+ "/task/" +:+ task_id in
  call self GET url None.

Definition set_custom_field_value (self : t)
    (task_id field_id : string) (value : value) : M Py.value :=
  let url := BASE_URL +:+ "/task/" +:+ task_id +:+ "/field/" +:+ field_id in
  let data : gmap string Py.value := <["value" := value]> ∅ in
  call self POST url (Some data).

End Service.

End ClickUpService.

(** ** [sample_agent/agent.py] *)

Module Agent.

(** One entry of [AIMessage.tool_calls]. *)
Record ToolCall : Type := {
  name : string;
  args : gmap string value;
  id : option string
}.

Inductive Message : Type :=
  | HumanMessage (content : string)
  | SystemMessage (content : string)
  | AIMessage (content : string) (tool_calls : list ToolCall)
  | ToolMessage (result : exn + value) (tool : string)
      (tool_call_id : option string).

(** [AgentState]: the [messages] and [copilotkit] keys come from
    [CopilotKitState], the other four are declared by the class itself;
    [language] is read with [state.get] and may be missing. *)
Record AgentState : Type := {
  messages : list Message;
  copilotkit_actions : list (gmap string value);
  language : option string;
  proverbs : list string;
  spaces : list string;
  lists : list string;
  tasks : list string
}.

(** [response.tool_calls] for an [AIMessage]; other messages request no
    tool. *)
Definition tool_calls_of (m : Message) : list ToolCall :=
  match m with
  | AIMessage _ calls => calls
  | _ => []
  end.

(** A value written to a key of the state by a node. *)
Inductive StateValue : Type :=
  | SMessages (ms : list Message)
  | SStrings (l : list string)
  | SString (s : string).

(** [Command(goto=..., update={...})] *)
Record Command : Type := {
  goto : string;
  update : gmap string StateValue
}.

(** What the graph does with a node's update: [messages] has the
    [add_messages] reducer, which appends (the identifiers of new messages
    are taken to be fresh); every other key is overwritten. *)
Definition apply_update (state : AgentState) (u : gmap string StateValue)
    : AgentState :=
  {| messages :=
       match u !! "messages" with
       | Some (SMessages ms) => messages state ++ ms
       | _ => messages state
       end;
     copilotkit_actions := copilotkit_actions state;
     language :=
       match u !! "language" with
       | Some (SString s) => Some s
       | _ => language state
       end;
     proverbs :=
       match u !! "proverbs" with
       | Some (SStrings l) => l
       | _ => proverbs state
       end;
     spaces :=
       match u !! "spaces" with
       | Some (SStrings l) => l
       | _ => spaces state
       end;
     lists :=
       match u !! "lists" with
       | Some (SStrings l) => l
       | _ => lists state
       end;
     tasks :=
       match u !! "tasks" with
       | Some (SStrings l) => l
       | _ => tasks state
       end |}.

(** What the model is bound to: a caller's action or a local tool. *)
Inductive BoundTool : Type :=
  | External (action : gmap string value)
  | Local (tool : string).

(** A registered tool: its name and what [tool.invoke(args)] does. *)
Record Tool : Type := {
  tool_name : string;
  invoke : gmap string value -> M value
}.

(** *** Arguments of a tool call against the tool's signature.
    Only a value of the annotated type is accepted; the conversions that
    the schema validation would attempt on other values are left out. *)

Definition as_str (v : value) : option string :=
  match v with VStr s => Some s | _ => None end.
Definition as_int (v : value) : option Z :=
  match v with VInt z => Some z | _ => None end.
Definition as_bool (v : value) : option bool :=
  match v with VBool b => Some b | _ => None end.

Definition required {A} (dec : value -> option A)
    (args : gmap string value) (key : string) : M A :=
  match args !! key with
  | Some v =>
      match dec v with
      | Some a => ret a
      | None => raise (ValidationError key)
      end
  | None => raise (ValidationError key)
  end.

Definition optional {A} (dec : value -> option A) (dflt : option A)
    (args : gmap string value) (key : string) : M (option A) :=
  match args !! key with
  | None => ret dflt
  | Some VNone => ret None
  | Some v =>
      match dec v with
      | Some a => ret (Some a)
      | None => raise (ValidationError key)
      end
  end.

Section Agent.

Variable remote : list Request -> Request -> exn + Response.
Variable environ : gmap string string.

(** The language model behind [model_with_tools.ainvoke]: given the bound
    tools and the prompt it answers with a message, or the call fails. *)
Variable ainvoke : list BoundTool -> list Message -> exn + Message.

(** [ClickUpService()] *)
Definition ClickUpService : M ClickUpService.t :=
  lift (ClickUpService.init environ).

Definition get_clickup_spaces : M value :=
  clickup <- ClickUpService ;;
  spaces <- ClickUpService.get_spaces remote clickup ;;
  ret spaces.

Definition get_clickup_lists (space_id : string) : M value :=
  clickup <- ClickUpService ;;
  lists <- ClickUpService.get_lists remote clickup space_id ;;
  ret lists.

Definition get_clickup_tasks (list_id : string) : M value :=
  clickup <- ClickUpService ;;
  tasks <- ClickUpService.get_tasks remote clickup list_id ;;
  ret tasks.

(** [json.loads(x) if x else None] *)
Definition loads_if_truthy (x : option string) : exn + value :=
  match x with
  | Some s => if str_truthy s then Json.loads s else inr VNone
  | None => inr VNone
  end.

(** [False if x is None else x] *)
Definition false_if_None (x : option bool) : bool :=
  match x with None => false | Some b => b end.

Definition create_clickup_task
    (list_id : string)
    (name : string)
    (description : option string)
    (due_date : option Z)
    (priority : option Z)
    (due_date_time : option bool)
    (time_estimate : option Z)
    (start_date : option Z)
    (start_date_time : option bool)
    (assignees : option string)
    (tags : option string)
    (status : option string) : M value :=
  clickup <- ClickUpService ;;
  assignees_list <- lift (loads_if_truthy assignees) ;;
  tags_list <- lift (loads_if_truthy tags) ;;
  task <- ClickUpService.create_task remote clickup
            list_id name description due_date priority
            (false_if_None due_date_time)
            time_estimate start_date
            (false_if_None start_date_time)
            assignees_list tags_list status VNone ;;
  ret task.

Definition update_clickup_task
    (task_id : string)
    (name : option string)
    (description : option string)
    (status : option string)
    (priority : option Z)
    (due_date : option Z)
    (due_date_time : option bool)
    (time_estimate : option Z)
    (start_date : option Z)
    (start_date_time : option bool)
    (assignees : option string)
    (archived : option bool) : M value :=
  clickup <- ClickUpService ;;
  assignees_list <- lift (loads_if_truthy assignees) ;;
  task <- ClickUpService.update_task remote clickup
            task_id name description status priority due_date
            (match due_date_time with None => None | Some b => Some b end)
            time_estimate start_date
            (match start_date_time with None => None | Some b => Some b end)
            assignees_list archived ;;
  ret task.

Definition delete_clickup_task (task_id : string) : M value :=
  clickup <- ClickUpService ;;
  response <- ClickUpService.delete_task remote clickup task_id ;;
  ret response.

Definition get_clickup_task_by_id (task_id : string) : M value :=
  clickup <- ClickUpService ;;
  task <- ClickUpService.get_task_by_id remote clickup task_id ;;
  ret task.

(** [try: json.loads(value) except json.JSONDecodeError: value] *)
Definition loads_or_raw (value : string) : exn + Py.value :=
  match Json.loads value with
  | inr parsed => inr parsed
  | inl JSONDecodeError => inr (VStr value)
  | inl e => inl e
  end.

Definition set_clickup_custom_field_value
    (task_id field_id value : string) : M Py.value :=
  clickup <- ClickUpService ;;
  parsed_value <- lift (loads_or_raw value) ;;
  response <- ClickUpService.set_custom_field_value remote clickup
                task_id field_id parsed_value ;;
  ret response.

(** *** The tools as the dispatch step sees them: name and [invoke]. *)

Definition get_clickup_spaces_tool : Tool :=
  {| tool_name := "get_clickup_spaces";
     invoke := fun _ => get_clickup_spaces |}.

Definition get_clickup_lists_tool : Tool :=
  {| tool_name := "get_clickup_lists";
     invoke := fun a =>
       space_id <- required as_str a "space_id" ;;
       get_clickup_lists space_id |}.

Definition get_clickup_tasks_tool : Tool :=
  {| tool_name := "get_clickup_tasks";
     invoke := fun a =>
       list_id <- required as_str a "list_id" ;;
       get_clickup_tasks list_id |}.

Definition create_clickup_task_tool : Tool :=
  {| tool_name := "create_clickup_task";
     invoke := fun a =>
       list_id <- required as_str a "list_id" ;;
       name <- required as_str a "name" ;;
       description <- optional as_str None a "description" ;;
       due_date <- optional as_int None a "due_date" ;;
       priority <- optional as_int None a "priority" ;;
       due_date_time <- optional as_bool (Some false) a "due_date_time" ;;
       time_estimate <- optional as_int None a "time_estimate" ;;
       start_date <- optional as_int None a "start_date" ;;
       start_date_time <- optional as_bool (Some false) a "start_date_time" ;;
       assignees <- optional as_str None a "assignees" ;;
       tags <- optional as_str None a "tags" ;;
       status <- optional as_str None a "status" ;;
       create_clickup_task list_id name description due_date priority
         due_date_time time_estimate start_date start_date_time
         assignees tags status |}.

Definition update_clickup_task_tool : Tool :=
  {| tool_name := "update_clickup_task";
     invoke := fun a =>
       task_id <- required as_str a "task_id" ;;
       name <- optional as_str None a "name" ;;
       description <- optional as_str None a "description" ;;
       status <- optional as_str None a "status" ;;
       priority <- optional as_int None a "priority" ;;
       due_date <- optional as_int None a "due_date" ;;
       due_date_time <- optional as_bool None a "due_date_time" ;;
       time_estimate <- optional as_int None a "time_estimate" ;;
       start_date <- optional as_int None a "start_date" ;;
       start_date_time <- optional as_bool None a "start_date_time" ;;
       assignees <- optional as_str None a "assignees" ;;
       archived <- optional as_bool None a "archived" ;;
       update_clickup_task task_id name description status priority
         due_date due_date_time time_estimate start_date start_date_time
         assignees archived |}.

Definition delete_clickup_task_tool : Tool :=
  {| tool_name := "delete_clickup_task";
     invoke := fun a =>
       task_id <- required as_str a "task_id" ;;
       delete_clickup_task task_id |}.

Definition get_clickup_task_by_id_tool : Tool :=
  {| tool_name := "get_clickup_task_by_id";
     invoke := fun a =>
       task_id <- required as_str a "task_id" ;;
       get_clickup_task_by_id task_id |}.

Definition set_clickup_custom_field_value_tool : Tool :=
  {| tool_name := "set_clickup_custom_field_value";
     invoke := fun a =>
       task_id <- required as_str a "task_id" ;;
       field_id <- required as_str a "field_id" ;;
       value <- required as_str a "value" ;;
       set_clickup_custom_field_value task_id field_id value |}.

Definition tools : list Tool := [
  get_clickup_spaces_tool;
  get_clickup_lists_tool;
  get_clickup_tasks_tool;
  create_clickup_task_tool;
  update_clickup_task_tool;
  delete_clickup_task_tool;
  get_clickup_task_by_id_tool;
  set_clickup_custom_field_value_tool
].

(** *** The reasoning node *)

(** [action.get("name") == response.tool_calls[0].get("name")]: the right
    side is the name of the tool call, always a [str]; the left side is the
    action's [name] entry, or [None] when it has none. *)
Definition action_matches (tool_call : ToolCall) (action : gmap string value)
    : bool :=
  match action !! "name" with
  | Some (VStr n) => String.eqb n (name tool_call)
  | _ => false
  end.

(** The tools the model is bound to: the caller's actions, then the eight
    local tools. *)
Definition model_with_tools (state : AgentState) : list BoundTool :=
  (map External (copilotkit_actions state) ++
   [ Local "get_clickup_spaces";
     Local "get_clickup_lists";
     Local "get_clickup_tasks";
     Local "create_clickup_task";
     Local "update_clickup_task";
     Local "delete_clickup_task";
     Local "get_clickup_task_by_id";
     Local "set_clickup_custom_field_value" ])%list.

Definition system_message (state : AgentState) : Message :=
  SystemMessage
    ("You are a helpful project management assistant capable of managing tasks in ClickUp. Talk in "
     +:+ default "english" (language state) +:+ ".").

(** The reasoning step: the model called on the system message followed by
    the conversation. *)
Definition reasoning (state : AgentState) : exn + Message :=
  ainvoke (model_with_tools state) (system_message state :: messages state).

Definition chat_node (state : AgentState) : M Command :=
  response <- lift (reasoning state) ;;
  let to_end :=
    {| goto := "__end__";
       update := {[ "messages" := SMessages [response] ]} |} in
  match response with
  | AIMessage _ (first :: _) =>
      let actions := copilotkit_actions state in
      if negb (existsb (action_matches first) actions)
      then ret {| goto := "tool_node";
                  update := {[ "messages" := SMessages [response] ]} |}
      else ret to_end
  | _ => ret to_end
  end.

(** *** The dispatch node, [ToolNode(tools=tools)] with its defaults: the
    tool calls of the last message are run in their order; a name that is
    no registered tool and an exception of a tool both become a tool
    message that reports the error. *)

Definition note_invoked (call : ToolCall) (w : World) : World :=
  {| sent := sent w; invoked := invoked w ++ [(name call, args call)] |}.

Definition run_one (registry : list Tool) (call : ToolCall) : M Message :=
  match find (fun t => String.eqb (tool_name t) (name call)) registry with
  | None =>
      ret (ToolMessage (inl (InvalidToolName (name call)))
             (name call) (id call))
  | Some t =>
      fun w =>
        let '(r, w') := invoke t (args call) (note_invoked call w) in
        (inr (ToolMessage r (name call) (id call)), w')
  end.

Fixpoint run_all (registry : list Tool) (calls : list ToolCall)
    : M (list Message) :=
  match calls with
  | [] => ret []
  | call :: rest =>
      m <- run_one registry call ;;
      ms <- run_all registry rest ;;
      ret (m :: ms)
  end.

Definition ToolNode (registry : list Tool) (state : AgentState)
    : M (gmap string StateValue) :=
  match last (messages state) with
  | Some (AIMessage _ tool_calls) =>
      outputs <- run_all registry tool_calls ;;
      ret {[ "messages" := SMessages outputs ]}
  | Some _ => raise (ValueError "Last message is not an AIMessage")
  | None => raise (ValueError "No message found in input")
  end.

(** *** The workflow graph: entry point [chat_node], which names its
    successor in its [Command]; an edge from [tool_node] to [chat_node].
    [limit] bounds the number of node executions of one turn (the graph's
    recursion limit). *)

Inductive Outcome : Type :=
  | Finished (state : AgentState)
  | Raised (e : exn)
  | GraphRecursionError.

Record Run : Type := {
  outcome : Outcome;
  visited : list string
}.

Fixpoint run (limit : nat) (node : string) (state : AgentState)
    (seen : list string) (w : World) : Run * World :=
  if String.eqb node "__end__" then
    ({| outcome := Finished state; visited := seen |}, w)
  else
    match limit with
    | O => ({| outcome := GraphRecursionError; visited := seen |}, w)
    | S limit' =>
        if String.eqb node "chat_node" then
          match chat_node state w with
          | (inr cmd, w') =>
              run limit' (goto cmd) (apply_update state (update cmd))
                (seen ++ [node]) w'
          | (inl e, w') =>
              ({| outcome := Raised e; visited := seen ++ [node] |}, w')
          end
        else if String.eqb node "tool_node" then
          match ToolNode tools state w with
          | (inr u, w') =>
              run limit' "chat_node" (apply_update state u)
                (seen ++ [node]) w'
          | (inl e, w') =>
              ({| outcome := Raised e; visited := seen ++ [node] |}, w')
          end
        else
          ({| outcome := Raised (ValueError "unknown node");
              visited := seen |}, w)
    end.

(** One turn: the compiled graph invoked on the restored state. *)
Definition graph (limit : nat) (state : AgentState) (w : World)
    : Run * World :=
  run limit "chat_node" state [] w.

(** How often a node was executed in a turn. *)
Definition count_node (node : string) (r : Run) : nat :=
  length (List.filter (String.eqb node) (visited r)).

End Agent.

End Agent.

(** ** Statements about payloads, and a sample configuration *)

Module Spec.

(** The payload of [create_task]: three fields always, the other nine
    exactly when the argument is truthy, and no further field. *)
Definition create_task_fields (data : gmap string value)
    (name : string) (description : option string)
    (due_date priority : option Z) (due_date_time : bool)
    (time_estimate start_date : option Z) (start_date_time : bool)
    (assignees tags : value) (status : option string)
    (custom_fields : value) : Prop :=
  data !! "name" = Some (VStr name)
  /\ data !! "due_date_time" = Some (VBool due_date_time)
  /\ data !! "start_date_time" = Some (VBool start_date_time)
  /\ data !! "description"
     = (if opt_truthy str_truthy description then VStr <$> description
        else None)
  /\ data !! "due_date"
     = (if opt_truthy int_truthy due_date then VInt <$> due_date else None)
  /\ data !! "priority"
     = (if opt_truthy int_truthy priority then VInt <$> priority else None)
  /\ data !! "time_estimate"
     = (if opt_truthy int_truthy time_estimate then VInt <$> time_estimate
        else None)
  /\ data !! "start_date"
     = (if opt_truthy int_truthy start_date then VInt <$> start_date
        else None)
  /\ data !! "assignees" = (if truthy assignees then Some assignees else None)
  /\ data !! "tags" = (if truthy tags then Some tags else None)
  /\ data !! "status"
     = (if opt_truthy str_truthy status then VStr <$> status else None)
  /\ data !! "custom_fields"
     = (if truthy custom_fields then Some custom_fields else None)
  /\ dom data ⊆ {[ "name"; "due_date_time"; "start_date_time";
                   "description"; "due_date"; "priority"; "time_estimate";
                   "start_date"; "assignees"; "tags"; "status";
                   "custom_fields" ]}.

(** The payload of [update_task]: a field only for an argument that is not
    [None], and for [name], [description] and [status] only when the
    string is not empty. *)
Definition update_task_fields (data : gmap string value)
    (name description status : option string)
    (priority due_date : option Z) (due_date_time : option bool)
    (time_estimate start_date : option Z) (start_date_time : option bool)
    (assignees : value) (archived : option bool) : Prop :=
  data !! "name"
  = (if opt_truthy str_truthy name then VStr <$> name else None)
  /\ data !! "description"
     = (if opt_truthy str_truthy description then VStr <$> description
        else None)
  /\ data !! "status"
     = (if opt_truthy str_truthy status then VStr <$> status else None)
  /\ data !! "priority" = VInt <$> priority
  /\ data !! "due_date" = VInt <$> due_date
  /\ data !! "due_date_time" = VBool <$> due_date_time
  /\ data !! "time_estimate" = VInt <$> time_estimate
  /\ data !! "start_date" = VInt <$> start_date
  /\ data !! "start_date_time" = VBool <$> start_date_time
  /\ data !! "assignees" = (if not_None assignees then Some assignees else None)
  /\ data !! "archived" = VBool <$> archived
  /\ dom data ⊆ {[ "name"; "description"; "status"; "priority"; "due_date";
                   "due_date_time"; "time_estimate"; "start_date";
                   "start_date_time"; "assignees"; "archived" ]}.

(** The computation [c], started in any world, sends exactly one request,
    and that request satisfies [P]. *)
Definition sends_one {A} (c : M A) (P : Request -> Prop) : Prop :=
  forall w, exists req, (c w).2 = after w req /\ P req.

(** Every method of the client sends one request, with the headers [h]. *)
Definition every_method_sends_with
    (remote : list Request -> Request -> exn + Response)
    (self : ClickUpService.t) (h : gmap string string) : Prop :=
  let carries (req : Request) := headers req = h in
  sends_one (ClickUpService.get_spaces remote self) carries
  /\ (forall space_id,
        sends_one (ClickUpService.get_lists remote self space_id) carries)
  /\ (forall list_id,
        sends_one (ClickUpService.get_tasks remote self list_id) carries)
  /\ (forall list_id name description due_date priority due_date_time
             time_estimate start_date start_date_time assignees tags status
             custom_fields,
        sends_one
          (ClickUpService.create_task remote self list_id name description
             due_date priority due_date_time time_estimate start_date
             start_date_time assignees tags status custom_fields) carries)
  /\ (forall task_id name description status priority due_date
             due_date_time time_estimate start_date start_date_time
             assignees archived,
        sends_one
          (ClickUpService.update_task remote self task_id name description
             status priority due_date due_date_time time_estimate start_date
             start_date_time assignees archived) carries)
  /\ (forall task_id,
        sends_one (ClickUpService.delete_task remote self task_id) carries)
  /\ (forall task_id,
        sends_one (ClickUpService.get_task_by_id remote self task_id) carries)
  /\ (forall task_id field_id v,
        sends_one
          (ClickUpService.set_custom_field_value remote self task_id
             field_id v) carries).

(** Where the reasoning node goes after the answer [response]. *)
Definition next_node (state : Agent.AgentState) (response : Agent.Message)
    : string :=
  match Agent.tool_calls_of response with
  | first :: _ =>
      if existsb (Agent.action_matches first) (Agent.copilotkit_actions state)
      then "__end__" else "tool_node"
  | [] => "__end__"
  end.

(** The fields that [AgentState] adds to the conversation are the same in
    both states. *)
Definition same_cache (a b : Agent.AgentState) : Prop :=
  Agent.proverbs a = Agent.proverbs b
  /\ Agent.spaces a = Agent.spaces b
  /\ Agent.lists a = Agent.lists b
  /\ Agent.tasks a = Agent.tasks b.

(** [P] holds of every method of the client, whatever its arguments. *)
Definition every_method
    (remote : list Request -> Request -> exn + Response)
    (self : ClickUpService.t) (P : M value -> Prop) : Prop :=
  P (ClickUpService.get_spaces remote self)
  /\ (forall space_id, P (ClickUpService.get_lists remote self space_id))
  /\ (forall list_id, P (ClickUpService.get_tasks remote self list_id))
  /\ (forall list_id name description due_date priority due_date_time
             time_estimate start_date start_date_time assignees tags status
             custom_fields,
        P (ClickUpService.create_task remote self list_id name description
             due_date priority due_date_time time_estimate start_date
             start_date_time assignees tags status custom_fields))
  /\ (forall task_id name description status priority due_date
             due_date_time time_estimate start_date start_date_time
             assignees archived,
        P (ClickUpService.update_task remote self task_id name description
             status priority due_date due_date_time time_estimate start_date
             start_date_time assignees archived))
  /\ (forall task_id, P (ClickUpService.delete_task remote self task_id))
  /\ (forall task_id, P (ClickUpService.get_task_by_id remote self task_id))
  /\ (forall task_id field_id v,
        P (ClickUpService.set_custom_field_value remote self task_id
             field_id v)).

(** [P] holds of the body of every tool, whatever its arguments. *)
Definition every_tool
    (remote : list Request -> Request -> exn + Response)
    (environ : gmap string string) (P : M value -> Prop) : Prop :=
  P (Agent.get_clickup_spaces remote environ)
  /\ (forall space_id, P (Agent.get_clickup_lists remote environ space_id))
  /\ (forall list_id, P (Agent.get_clickup_tasks remote environ list_id))
  /\ (forall list_id name description due_date priority due_date_time
             time_estimate start_date start_date_time assignees tags status,
        P (Agent.create_clickup_task remote environ list_id name description
             due_date priority due_date_time time_estimate start_date
             start_date_time assignees tags status))
  /\ (forall task_id name description status priority due_date
             due_date_time time_estimate start_date start_date_time
             assignees archived,
        P (Agent.update_clickup_task remote environ task_id name description
             status priority due_date due_date_time time_estimate start_date
             start_date_time assignees archived))
  /\ (forall task_id, P (Agent.delete_clickup_task remote environ task_id))
  /\ (forall task_id, P (Agent.get_clickup_task_by_id remote environ task_id))
  /\ (forall task_id field_id v,
        P (Agent.set_clickup_custom_field_value remote environ task_id
             field_id v)).

(** The computation sends one request and returns what the remote service
    answered to it: the transport's exception, [HTTPError] for a status
    from 400 to 599, and otherwise the decoded body. *)
Definition one_round_trip
    (remote : list Request -> Request -> exn + Response)
    (c : M value) : Prop :=
  forall w, exists req,
    (c w).2 = after w req
    /\ (c w).1
       = match remote (sent w) req with
         | inl e => inl e
         | inr r =>
             if (400 <=? status_code r) && (status_code r <? 600)
             then inl (HTTPError (status_code r))
             else Json.loads (text r)
         end.

(** The computation raises [e] and leaves the world as it was. *)
Definition fails_with {A} (e : exn) (c : M A) : Prop :=
  forall w, c w = (inl e, w).

(** From [w] to [w'] both logs only grew at their end, and no more requests
    were sent than local operations were started. *)
Definition accounted (w w' : World) : Prop :=
  exists (reqs : list Request) (calls : list (string * gmap string value)),
    sent w' = (sent w ++ reqs)%list
    /\ invoked w' = (invoked w ++ calls)%list
    /\ (length reqs <= length calls)%nat.

(** The computation starts no operation and sends at most one request. *)
Definition at_most_one_request {A} (c : M A) : Prop :=
  forall w,
    invoked (c w).2 = invoked w
    /\ (sent (c w).2 = sent w
        \/ exists req, sent (c w).2 = (sent w ++ [req])%list).

(** The computation leaves the world as it was. *)
Definition quiet {A} (c : M A) : Prop := forall w, (c w).2 = w.


(** [k] rounds of reasoning and dispatch. *)
Fixpoint rounds (k : nat) : list string :=
  match k with
  | O => []
  | S k' => "chat_node" :: "tool_node" :: rounds k'
  end.

(** The names of the local tools among the tools bound to the model. *)
Definition local_names (bound : list Agent.BoundTool) : list string :=
  omap (fun b => match b with
                 | Agent.Local n => Some n
                 | Agent.External _ => None
                 end) bound.

(** Every tool call that the model makes carries an identifier. *)
Definition calls_have_ids
    (ainvoke : list Agent.BoundTool -> list Agent.Message
               -> exn + Agent.Message) : Prop :=
  forall bound prompt content calls,
    ainvoke bound prompt = inr (Agent.AIMessage content calls) ->
    Forall (fun call => is_Some (Agent.id call)) calls.

End Spec.

Module Sample.

Definition environ : gmap string string :=
  <["CLICKUP_TEAM_ID" := "9001"]> (<["CLICKUP_API_KEY" := "pk_test"]> ∅).

Definition clickup : ClickUpService.t :=
  {| ClickUpService.api_key := "pk_test";
     ClickUpService.team_id := "9001";
     ClickUpService.self_headers :=
       <["Accept" := "application/json"]>
       (<["Content-Type" := "application/json"]>
        (<["Authorization" := "pk_test"]> ∅)) |}.

(** A remote service that answers every request with 200 and an empty
    JSON object. *)
Definition remote (history : list Request) (req : Request)
    : exn + Response :=
  inr {| status_code := 200; text := "{}" |}.

Definition w0 : World := {| sent := []; invoked := [] |}.

(** The decimal text made of [n] digits 1. *)
Fixpoint ones (n : nat) : string :=
  match n with
  | O => ""
  | S k => String "1" (ones k)
  end.

(** A conversation with one user message, no action of the caller and a
    cached space. *)
Definition state : Agent.AgentState :=
  {| Agent.messages := [Agent.HumanMessage "List my spaces"];
     Agent.copilotkit_actions := [];
     Agent.language := None;
     Agent.proverbs := [];
     Agent.spaces := ["90183095898"];
     Agent.lists := [];
     Agent.tasks := [] |}.

(** The same conversation when the caller supplies an action [navigate]. *)
Definition state_with_action : Agent.AgentState :=
  {| Agent.messages := [Agent.HumanMessage "List my spaces"];
     Agent.copilotkit_actions := [ {[ "name" := VStr "navigate" ]} ];
     Agent.language := None;
     Agent.proverbs := [];
     Agent.spaces := ["90183095898"];
     Agent.lists := [];
     Agent.tasks := [] |}.

Definition call_spaces : Agent.ToolCall :=
  {| Agent.name := "get_clickup_spaces"; Agent.args := ∅;
     Agent.id := Some "call_1" |}.

Definition call_navigate : Agent.ToolCall :=
  {| Agent.name := "navigate"; Agent.args := ∅; Agent.id := Some "call_0" |}.

Definition call_unknown : Agent.ToolCall :=
  {| Agent.name := "archive_workspace"; Agent.args := ∅;
     Agent.id := Some "call_2" |}.

(** A model that asks for [requests] until it sees a tool message at the
    end of the prompt, and then answers in plain text. *)
Definition asks (requests : list Agent.ToolCall)
    (bound : list Agent.BoundTool) (prompt : list Agent.Message)
    : exn + Agent.Message :=
  match last prompt with
  | Some (Agent.ToolMessage _ _ _) => inr (Agent.AIMessage "Done." [])
  | _ => inr (Agent.AIMessage "" requests)
  end.

(** A model that asks for the spaces and fails when it is called again
    with the result. *)
Definition asks_then_fails
    (bound : list Agent.BoundTool) (prompt : list Agent.Message)
    : exn + Agent.Message :=
  match last prompt with
  | Some (Agent.ToolMessage _ _ _) => inl (ModelError "quota")
  | _ => inr (Agent.AIMessage "" [call_spaces])
  end.

End Sample.

(** * Properties *)

(** ** The decoder never runs out of its recursion budget *)

Section DecoderBudget.

Import Json.

Local Abbreviation len := String.length.

Lemma skip_ws_length s : (len (skip_ws s) <= len s)%nat.
Proof.
  induction s as [|c r IH]; simpl; [lia|].
  destruct (is_ws c); simpl; lia.
Qed.

Lemma take_digits_length s ds r :
  take_digits s = (ds, r) -> (len r + length ds = len s)%nat.
Proof.
  revert ds r. induction s as [|c s IH]; intros ds r; simpl.
  - intros [= <- <-]. reflexivity.
  - destruct (digit_of c).
    + destruct (take_digits s) as [ds' r'] eqn:Ht. intros [= <- <-].
      specialize (IH _ _ eq_refl). simpl. lia.
    + intros [= <- <-]. simpl. lia.
Qed.

Lemma strip_prefix_length p s r :
  strip_prefix p s = Some r -> (len p + len r = len s)%nat.
Proof.
  revert s. induction p as [|a p IH]; intros s; simpl.
  - intros [= <-]. reflexivity.
  - destruct s as [|b s]; [discriminate|].
    destruct (Ascii.eqb a b); [|discriminate].
    intros H. apply IH in H. simpl. lia.
Qed.

Lemma decode_uXXXX_length s cp r :
  decode_uXXXX s = Some (cp, r) -> (len r + 4 = len s)%nat.
Proof.
  unfold decode_uXXXX. intros H.
  repeat case_match; simplify_eq. simpl. lia.
Qed.

Lemma scan_escape_length s piece r :
  scan_escape s = Some (piece, r) -> (len r < len s)%nat.
Proof.
  unfold scan_escape. intros H.
  repeat (case_match; try discriminate); simplify_eq; simpl;
    repeat match goal with
           | H : decode_uXXXX _ = Some _ |- _ =>
               apply decode_uXXXX_length in H; simpl in H
           end; lia.
Qed.

Lemma scanstring_go_budget n :
  forall s acc,
    (len s < n)%nat ->
    scanstring_go n s acc <> Exhausted
    /\ forall str r, scanstring_go n s acc = Got str r -> (len r < len s)%nat.
Proof.
  induction n as [|n IH]; intros s acc Hn; [lia|].
  destruct s as [|c r]; simpl; [split; [discriminate | intros ? ? [=]]|].
  simpl in Hn.
  destruct (Ascii.eqb c "034").
  { split; [discriminate|]. intros ? ? [= <- <-]. lia. }
  destruct (Ascii.eqb c "\").
  { destruct (scan_escape r) as [[piece r']|] eqn:He;
      [|split; [discriminate | intros ? ? [=]]].
    apply scan_escape_length in He.
    destruct (IH r' (acc +:+ piece)) as [Hne Hlen]; [lia|].
    split; [exact Hne|]. intros str r0 Hg. apply Hlen in Hg. lia. }
  destruct (N.ltb _ _); [split; [discriminate | intros ? ? [=]]|].
  destruct (IH r (acc +:+ String c "")) as [Hne Hlen]; [lia|].
  split; [exact Hne|]. intros str r0 Hg. apply Hlen in Hg. lia.
Qed.

Lemma scanstring_budget s :
  scanstring s <> Exhausted
  /\ forall str r, scanstring s = Got str r -> (len r < len s)%nat.
Proof. unfold scanstring. apply scanstring_go_budget. lia. Qed.

Lemma opt_minus_length s neg r :
  opt_minus s = (neg, r) -> (len r <= len s)%nat.
Proof.
  unfold opt_minus. destruct s as [|c s]; [intros [= <- <-]; lia|].
  destruct (Ascii.eqb c "-"); intros [= <- <-]; simpl; lia.
Qed.

Lemma opt_sign_length s neg r :
  opt_sign s = (neg, r) -> (len r <= len s)%nat.
Proof.
  unfold opt_sign. destruct s as [|c s]; [intros [= <- <-]; lia|].
  destruct (Ascii.eqb c "-"); [intros [= <- <-]; simpl; lia|].
  destruct (Ascii.eqb c "+"); intros [= <- <-]; simpl; lia.
Qed.

Lemma int_part_length s ip r :
  int_part s = Some (ip, r) -> (len r < len s)%nat.
Proof.
  unfold int_part. destruct s as [|c s]; [discriminate|].
  destruct (digit_of c) as [d|] eqn:Hd; [|discriminate].
  destruct (N.eqb d 0); [intros [= <- <-]; simpl; lia|].
  simpl. rewrite Hd. destruct (take_digits s) as [ds r'] eqn:Ht.
  intros [= <- <-]. apply take_digits_length in Ht. lia.
Qed.

Lemma frac_part_length s fp r :
  frac_part s = (fp, r) -> (len r <= len s)%nat.
Proof.
  unfold frac_part. destruct s as [|c s]; [intros [= <- <-]; lia|].
  destruct (Ascii.eqb c "."); [|intros [= <- <-]; lia].
  destruct (take_digits s) as [[|d ds] r'] eqn:Ht; intros [= <- <-]; [lia|].
  apply take_digits_length in Ht. simpl in *. lia.
Qed.

Lemma exp_part_length s ex r :
  exp_part s = (ex, r) -> (len r <= len s)%nat.
Proof.
  unfold exp_part. destruct s as [|c s]; [intros [= <- <-]; lia|].
  destruct (_ || _); [|intros [= <- <-]; lia].
  destruct (opt_sign s) as [eneg r1] eqn:Hs. apply opt_sign_length in Hs.
  destruct (take_digits r1) as [[|d ds] r2] eqn:Ht; intros [= <- <-]; [lia|].
  apply take_digits_length in Ht. simpl in *. lia.
Qed.

Lemma match_number_length s v r :
  match_number s = Some (v, r) -> (len r < len s)%nat.
Proof.
  unfold match_number.
  destruct (opt_minus s) as [neg s1] eqn:H1. apply opt_minus_length in H1.
  destruct (int_part s1) as [[ip s2]|] eqn:H2; [|discriminate].
  apply int_part_length in H2.
  destruct (frac_part s2) as [fp s3] eqn:H3. apply frac_part_length in H3.
  destruct (exp_part s3) as [ex s4] eqn:H4. apply exp_part_length in H4.
  destruct fp, ex; intros [= _ <-]; lia.
Qed.

Lemma scan_atom_length s v r :
  scan_atom s = Some (v, r) -> (len r < len s)%nat.
Proof.
  unfold scan_atom. intros H.
  repeat (case_match; try discriminate); simplify_eq;
    repeat match goal with
           | H : strip_prefix _ _ = Some _ |- _ =>
               apply strip_prefix_length in H; simpl in H
           | H : match_number _ = Some _ |- _ =>
               apply match_number_length in H
           end; lia.
Qed.

Lemma within_budget_Stop {A} s : within_budget (@Stop A) s.
Proof. split; [discriminate | intros ? ? [=]]. Qed.

Lemma within_budget_Throws {A} e s : within_budget (@Throws A e) s.
Proof. split; [discriminate | intros ? ? [=]]. Qed.

Lemma within_budget_Got {A} (v : A) r s :
  (len r < len s)%nat -> within_budget (Got v r) s.
Proof. intros Hl. split; [discriminate | intros ? ? [= <- <-]; exact Hl]. Qed.

Lemma within_budget_shorter {A} (c : scan A) s s' :
  within_budget c s -> (len s <= len s')%nat -> within_budget c s'.
Proof.
  intros [Hne Hl] Hs. split; [exact Hne|].
  intros v r Hg. apply Hl in Hg. lia.
Qed.

Local Arguments skip_ws : simpl never.
Local Arguments scanstring : simpl never.
Local Arguments scan_atom : simpl never.

Lemma scan_budget fuel :
  (forall depth s,
     (2 * len s < fuel)%nat -> within_budget (scan_once fuel depth s) s)
  /\ (forall depth s values,
        (2 * len s + 1 < fuel)%nat ->
        within_budget (array_items fuel depth s values) s)
  /\ (forall depth s pairs,
        (2 * len s + 1 < fuel)%nat ->
        within_budget (object_pairs fuel depth s pairs) s).
Proof.
  induction fuel as [|fuel (IHs & IHa & IHo)]; [repeat split; lia|].
  split; [|split].
  - intros depth s Hf.
    destruct s as [|c r]; simpl; [apply within_budget_Stop|].
    simpl in Hf.
    destruct (Ascii.eqb c "034").
    { destruct (scanstring_budget r) as [Hne Hl].
      destruct (scanstring r) as [| |e|str r'] eqn:Hs;
        [congruence | apply within_budget_Stop
        | apply within_budget_Throws |].
      apply within_budget_Got. specialize (Hl _ _ eq_refl).
      simpl in *; lia. }
    destruct (Ascii.eqb c "{").
    { destruct depth as [|depth]; [apply within_budget_Throws|].
      pose proof (skip_ws_length r) as Hw.
      destruct (skip_ws r) as [|d r']; [apply within_budget_Stop|].
      simpl in Hw.
      destruct (Ascii.eqb d "}");
        [apply within_budget_Got; simpl in *; lia|].
      destruct (Ascii.eqb d "034"); [|apply within_budget_Stop].
      eapply within_budget_shorter; [apply IHo|]; simpl in *; lia. }
    destruct (Ascii.eqb c "[").
    { destruct depth as [|depth]; [apply within_budget_Throws|].
      pose proof (skip_ws_length r) as Hw.
      destruct (skip_ws r) as [|d r']; [apply within_budget_Stop|].
      simpl in Hw.
      destruct (Ascii.eqb d "]");
        [apply within_budget_Got; simpl in *; lia|].
      eapply within_budget_shorter; [apply IHa|]; simpl; simpl in *; lia. }
    destruct (scan_atom (String c r)) as [[[e|v] r']|] eqn:Ha;
      [apply within_budget_Throws | | apply within_budget_Stop].
    apply scan_atom_length in Ha. by apply within_budget_Got.
  - intros depth s values Hf. simpl.
    destruct (IHs depth s) as [Hne Hl]; [simpl in *; lia|].
    destruct (scan_once fuel depth s) as [| |e|v r] eqn:Hs;
      [congruence | apply within_budget_Stop
      | apply within_budget_Throws |].
    specialize (Hl _ _ eq_refl).
    pose proof (skip_ws_length r) as Hw.
    destruct (skip_ws r) as [|d r']; [apply within_budget_Stop|].
    simpl in Hw.
    destruct (Ascii.eqb d "]"); [apply within_budget_Got; simpl in *; lia|].
    destruct (Ascii.eqb d ","); [|apply within_budget_Stop].
    pose proof (skip_ws_length r') as Hw'.
    eapply within_budget_shorter; [apply IHa|]; simpl in *; lia.
  - intros depth s pairs Hf. simpl.
    destruct (scanstring_budget s) as [Hne Hl].
    destruct (scanstring s) as [| |e|key r] eqn:Hs;
      [congruence | apply within_budget_Stop
      | apply within_budget_Throws |].
    specialize (Hl _ _ eq_refl).
    pose proof (skip_ws_length r) as Hw.
    destruct (skip_ws r) as [|c r1]; [apply within_budget_Stop|].
    simpl in Hw.
    destruct (Ascii.eqb c ":"); [|apply within_budget_Stop].
    pose proof (skip_ws_length r1) as Hw1.
    destruct (IHs depth (skip_ws r1)) as [Hne2 Hl2]; [simpl in *; lia|].
    destruct (scan_once fuel depth (skip_ws r1)) as [| |e|v r2] eqn:Hv;
      [congruence | apply within_budget_Stop
      | apply within_budget_Throws |].
    specialize (Hl2 _ _ eq_refl).
    pose proof (skip_ws_length r2) as Hw2.
    destruct (skip_ws r2) as [|d r3]; [apply within_budget_Stop|].
    simpl in Hw2.
    destruct (Ascii.eqb d "}"); [apply within_budget_Got; simpl in *; lia|].
    destruct (Ascii.eqb d ","); [|apply within_budget_Stop].
    pose proof (skip_ws_length r3) as Hw3.
    destruct (skip_ws r3) as [|q r4]; [apply within_budget_Stop|].
    simpl in Hw3.
    destruct (Ascii.eqb q "034"); [|apply within_budget_Stop].
    eapply within_budget_shorter; [apply IHo|]; simpl in *; lia.
Qed.

(** The budget that [loads] gives the decoder is never used up: an error of
    the model is an error of the decoder. *)
Lemma loads_fuel_enough s depth :
  decode (2 * len s + 2) depth s <> Exhausted.
Proof.
  unfold decode.
  pose proof (skip_ws_length s) as Hw.
  destruct (proj1 (scan_budget (2 * len s + 2)) depth (skip_ws s))
    as [Hne _]; [lia|].
  destruct (scan_once _ _ _) as [| |e|v r];
    [congruence | discriminate | discriminate |].
  destruct (skip_ws r); discriminate.
Qed.

End DecoderBudget.

(** ** Dictionaries built by conditional assignment *)

Section DataLemmas.

Context {A : Type}.
Implicit Types (data : gmap string value) (key k : string).

Lemma lookup_set_if_truthy_ne (t : A -> bool) inj key arg data k :
  key ≠ k ->
  ClickUpService.set_if_truthy t inj key arg data !! k = data !! k.
Proof.
  intros Hne. unfold ClickUpService.set_if_truthy.
  destruct arg as [a|]; [destruct (t a)|]; trivial.
  by rewrite lookup_insert_ne.
Qed.

Lemma lookup_set_if_truthy_eq (t : A -> bool) inj key arg data :
  data !! key = None ->
  ClickUpService.set_if_truthy t inj key arg data !! key
  = if opt_truthy t arg then inj <$> arg else None.
Proof.
  intros Hfresh. unfold ClickUpService.set_if_truthy.
  destruct arg as [a|]; simpl; [destruct (t a)|]; trivial.
  by rewrite lookup_insert_eq.
Qed.

Lemma lookup_set_if_not_None_ne (inj : A -> value) key arg data k :
  key ≠ k ->
  ClickUpService.set_if_not_None inj key arg data !! k = data !! k.
Proof.
  intros Hne. unfold ClickUpService.set_if_not_None.
  destruct arg as [a|]; trivial. by rewrite lookup_insert_ne.
Qed.

Lemma lookup_set_if_not_None_eq (inj : A -> value) key arg data :
  data !! key = None ->
  ClickUpService.set_if_not_None inj key arg data !! key = inj <$> arg.
Proof.
  intros Hfresh. unfold ClickUpService.set_if_not_None.
  destruct arg as [a|]; simpl; trivial. by rewrite lookup_insert_eq.
Qed.

End DataLemmas.

Lemma lookup_set_value_if_truthy_ne key arg (data : gmap string value) k :
  key ≠ k ->
  ClickUpService.set_value_if_truthy key arg data !! k = data !! k.
Proof.
  intros Hne. unfold ClickUpService.set_value_if_truthy.
  destruct (truthy arg); trivial. by rewrite lookup_insert_ne.
Qed.

Lemma lookup_set_value_if_truthy_eq key arg (data : gmap string value) :
  data !! key = None ->
  ClickUpService.set_value_if_truthy key arg data !! key
  = if truthy arg then Some arg else None.
Proof.
  intros Hfresh. unfold ClickUpService.set_value_if_truthy.
  destruct (truthy arg); trivial. by rewrite lookup_insert_eq.
Qed.

Lemma lookup_set_value_if_not_None_ne key arg (data : gmap string value) k :
  key ≠ k ->
  ClickUpService.set_value_if_not_None key arg data !! k = data !! k.
Proof.
  intros Hne. unfold ClickUpService.set_value_if_not_None.
  destruct arg; trivial; by rewrite lookup_insert_ne.
Qed.

Lemma lookup_set_value_if_not_None_eq key arg (data : gmap string value) :
  data !! key = None ->
  ClickUpService.set_value_if_not_None key arg data !! key
  = if not_None arg then Some arg else None.
Proof.
  intros Hfresh. unfold ClickUpService.set_value_if_not_None.
  destruct arg; simpl; trivial; by rewrite lookup_insert_eq.
Qed.

(** The keys of a payload stay inside any set that holds the assigned key. *)
Lemma dom_insert_within (X : gset string) key (v : value)
    (data : gmap string value) :
  key ∈ X -> dom data ⊆ X -> dom (<[key := v]> data) ⊆ X.
Proof.
  intros Hk Hd. rewrite dom_insert. apply union_subseteq. split; [|exact Hd].
  by apply singleton_subseteq_l.
Qed.

Lemma dom_set_if_truthy_within {A} (X : gset string) (t : A -> bool) inj key
    arg (data : gmap string value) :
  key ∈ X -> dom data ⊆ X ->
  dom (ClickUpService.set_if_truthy t inj key arg data) ⊆ X.
Proof.
  intros Hk Hd. unfold ClickUpService.set_if_truthy.
  destruct arg as [a|]; [destruct (t a)|]; auto using dom_insert_within.
Qed.

Lemma dom_set_if_not_None_within {A} (X : gset string) (inj : A -> value) key
    arg (data : gmap string value) :
  key ∈ X -> dom data ⊆ X ->
  dom (ClickUpService.set_if_not_None inj key arg data) ⊆ X.
Proof.
  intros Hk Hd. unfold ClickUpService.set_if_not_None.
  destruct arg as [a|]; auto using dom_insert_within.
Qed.

Lemma dom_set_value_if_truthy_within (X : gset string) key arg
    (data : gmap string value) :
  key ∈ X -> dom data ⊆ X ->
  dom (ClickUpService.set_value_if_truthy key arg data) ⊆ X.
Proof.
  intros Hk Hd. unfold ClickUpService.set_value_if_truthy.
  destruct (truthy arg); auto using dom_insert_within.
Qed.

Lemma dom_set_value_if_not_None_within (X : gset string) key arg
    (data : gmap string value) :
  key ∈ X -> dom data ⊆ X ->
  dom (ClickUpService.set_value_if_not_None key arg data) ⊆ X.
Proof.
  intros Hk Hd. unfold ClickUpService.set_value_if_not_None.
  destruct arg; auto using dom_insert_within.
Qed.

Ltac payload_dom :=
  repeat first
    [ apply dom_set_if_truthy_within
    | apply dom_set_if_not_None_within
    | apply dom_set_value_if_truthy_within
    | apply dom_set_value_if_not_None_within
    | apply dom_insert_within ];
  first [ rewrite dom_empty; apply empty_subseteq | set_solver ].

(** Rewrites a lookup through the conditional assignments of a payload,
    skipping those for other keys. *)
Ltac skip_other_keys :=
  repeat first
    [ rewrite lookup_set_if_truthy_ne by discriminate
    | rewrite lookup_set_if_not_None_ne by discriminate
    | rewrite lookup_set_value_if_truthy_ne by discriminate
    | rewrite lookup_set_value_if_not_None_ne by discriminate
    | rewrite lookup_insert_ne by discriminate ].

Ltac payload_lookup :=
  skip_other_keys;
  first
    [ rewrite lookup_insert_eq; reflexivity
    | rewrite lookup_set_if_truthy_eq;
        [ reflexivity | skip_other_keys; apply lookup_empty ]
    | rewrite lookup_set_if_not_None_eq;
        [ reflexivity | skip_other_keys; apply lookup_empty ]
    | rewrite lookup_set_value_if_truthy_eq;
        [ reflexivity | skip_other_keys; apply lookup_empty ]
    | rewrite lookup_set_value_if_not_None_eq;
        [ reflexivity | skip_other_keys; apply lookup_empty ]
    | apply lookup_empty ].

(** ** What a method of the client sends and returns *)

Section Calls.

Variable remote : list Request -> Request -> exn + Response.

Lemma call_world self m u body w :
  (ClickUpService.call remote self m u body w).2
  = after w {| method := m; url := u;
               headers := ClickUpService.self_headers self; json := body |}.
Proof.
  unfold ClickUpService.call, ClickUpService.send, bind.
  destruct (remote _ _) as [e|r]; [reflexivity|].
  unfold ClickUpService.raise_for_status, ClickUpService.response_json.
  destruct (_ && _); reflexivity.
Qed.

Lemma bind_ret_r {A} (c : M A) w : (x <- c ;; ret x) w = c w.
Proof. unfold bind, ret. destruct (c w) as [[e|a] w']; reflexivity. Qed.

Lemma bind_lift_inr {A B} (a : A) (k : A -> M B) w :
  (x <- lift (inr a) ;; k x) w = k a w.
Proof. reflexivity. Qed.

Lemma bind_lift_inl {A B} (e : exn) (k : A -> M B) w :
  (x <- lift (inl e) ;; k x) w = (inl e, w).
Proof. reflexivity. Qed.

Variable environ : gmap string string.

Lemma create_clickup_task_eq clickup list_id name description due_date
    priority due_date_time time_estimate start_date start_date_time
    assignees tags status assignees_list tags_list w :
  ClickUpService.init environ = inr clickup ->
  Agent.loads_if_truthy assignees = inr assignees_list ->
  Agent.loads_if_truthy tags = inr tags_list ->
  Agent.create_clickup_task remote environ list_id name description due_date
    priority due_date_time time_estimate start_date start_date_time
    assignees tags status w
  = ClickUpService.call remote clickup POST
      (ClickUpService.BASE_URL +:+ "/list/" +:+ list_id +:+ "/task")
      (Some (ClickUpService.create_task_data name description
               due_date priority
               (Agent.false_if_None due_date_time)
               time_estimate start_date
               (Agent.false_if_None start_date_time)
               assignees_list tags_list status VNone)) w.
Proof.
  intros Hinit Ha Ht.
  unfold Agent.create_clickup_task, Agent.ClickUpService.
  rewrite Hinit, bind_lift_inr, Ha, bind_lift_inr, Ht, bind_lift_inr.
  rewrite bind_ret_r. reflexivity.
Qed.

Lemma create_clickup_task_parse_error clickup list_id name description
    due_date priority due_date_time time_estimate start_date start_date_time
    assignees tags status e w :
  ClickUpService.init environ = inr clickup ->
  (Agent.loads_if_truthy assignees = inl e
   \/ (exists l, Agent.loads_if_truthy assignees = inr l)
      /\ Agent.loads_if_truthy tags = inl e) ->
  Agent.create_clickup_task remote environ list_id name description due_date
    priority due_date_time time_estimate start_date start_date_time
    assignees tags status w
  = (inl e, w).
Proof.
  intros Hinit [Ha | [[l Ha] Ht]];
    unfold Agent.create_clickup_task, Agent.ClickUpService;
    rewrite Hinit, bind_lift_inr, Ha.
  - reflexivity.
  - rewrite bind_lift_inr, Ht. reflexivity.
Qed.

End Calls.

Section CreateTaskPayload.

Variables (name : string) (description : option string)
  (due_date priority : option Z) (due_date_time : bool)
  (time_estimate start_date : option Z) (start_date_time : bool)
  (assignees tags : value) (status : option string) (custom_fields : value).

Let data : gmap string value :=
  ClickUpService.create_task_data name description due_date priority
    due_date_time time_estimate start_date start_date_time assignees tags
    status custom_fields.

Lemma create_task_data_name : data !! "name" = Some (VStr name).
Proof. unfold data, ClickUpService.create_task_data. payload_lookup. Qed.

Lemma create_task_data_due_date_time :
  data !! "due_date_time" = Some (VBool due_date_time).
Proof. unfold data, ClickUpService.create_task_data. payload_lookup. Qed.

Lemma create_task_data_start_date_time :
  data !! "start_date_time" = Some (VBool start_date_time).
Proof. unfold data, ClickUpService.create_task_data. payload_lookup. Qed.

Lemma create_task_data_description :
  data !! "description"
  = if opt_truthy str_truthy description then VStr <$> description else None.
Proof. unfold data, ClickUpService.create_task_data. payload_lookup. Qed.

Lemma create_task_data_due_date :
  data !! "due_date"
  = if opt_truthy int_truthy due_date then VInt <$> due_date else None.
Proof. unfold data, ClickUpService.create_task_data. payload_lookup. Qed.

Lemma create_task_data_priority :
  data !! "priority"
  = if opt_truthy int_truthy priority then VInt <$> priority else None.
Proof. unfold data, ClickUpService.create_task_data. payload_lookup. Qed.

Lemma create_task_data_time_estimate :
  data !! "time_estimate"
  = if opt_truthy int_truthy time_estimate then VInt <$> time_estimate
    else None.
Proof. unfold data, ClickUpService.create_task_data. payload_lookup. Qed.

Lemma create_task_data_start_date :
  data !! "start_date"
  = if opt_truthy int_truthy start_date then VInt <$> start_date else None.
Proof. unfold data, ClickUpService.create_task_data. payload_lookup. Qed.

Lemma create_task_data_assignees :
  data !! "assignees" = if truthy assignees then Some assignees else None.
Proof. unfold data, ClickUpService.create_task_data. payload_lookup. Qed.

Lemma create_task_data_tags :
  data !! "tags" = if truthy tags then Some tags else None.
Proof. unfold data, ClickUpService.create_task_data. payload_lookup. Qed.

Lemma create_task_data_status :
  data !! "status"
  = if opt_truthy str_truthy status then VStr <$> status else None.
Proof. unfold data, ClickUpService.create_task_data. payload_lookup. Qed.

Lemma create_task_data_custom_fields :
  data !! "custom_fields"
  = if truthy custom_fields then Some custom_fields else None.
Proof. unfold data, ClickUpService.create_task_data. payload_lookup. Qed.

End CreateTaskPayload.

(** ** The payload of [create_task] *)

Lemma create_task_data_fields name description due_date priority
    due_date_time time_estimate start_date start_date_time assignees tags
    status custom_fields :
  Spec.create_task_fields
    (ClickUpService.create_task_data name description due_date priority
       due_date_time time_estimate start_date start_date_time assignees tags
       status custom_fields)
    name description due_date priority due_date_time time_estimate
    start_date start_date_time assignees tags status custom_fields.
Proof.
  unfold Spec.create_task_fields.
  split; [apply create_task_data_name|].
  split; [apply create_task_data_due_date_time|].
  split; [apply create_task_data_start_date_time|].
  split; [apply create_task_data_description|].
  split; [apply create_task_data_due_date|].
  split; [apply create_task_data_priority|].
  split; [apply create_task_data_time_estimate|].
  split; [apply create_task_data_start_date|].
  split; [apply create_task_data_assignees|].
  split; [apply create_task_data_tags|].
  split; [apply create_task_data_status|].
  split; [apply create_task_data_custom_fields|].
  unfold ClickUpService.create_task_data. payload_dom.
Qed.

Lemma create_task_sends remote self list_id name description due_date
    priority due_date_time time_estimate start_date start_date_time assignees
    tags status custom_fields :
  Spec.sends_one
    (ClickUpService.create_task remote self list_id name description due_date
       priority due_date_time time_estimate start_date start_date_time
       assignees tags status custom_fields)
    (fun req =>
       method req = POST
       /\ headers req = ClickUpService.self_headers self
       /\ json req
          = Some (ClickUpService.create_task_data name description due_date
                    priority due_date_time time_estimate start_date
                    start_date_time assignees tags status custom_fields)).
Proof.
  intros w. eexists. split.
  - unfold ClickUpService.create_task. apply call_world.
  - simpl. auto.
Qed.

Lemma create_clickup_task_sends remote environ clickup list_id name
    description due_date priority due_date_time time_estimate start_date
    start_date_time assignees tags status assignees_list tags_list :
  ClickUpService.init environ = inr clickup ->
  Agent.loads_if_truthy assignees = inr assignees_list ->
  Agent.loads_if_truthy tags = inr tags_list ->
  Spec.sends_one
    (Agent.create_clickup_task remote environ list_id name description
       due_date priority due_date_time time_estimate start_date
       start_date_time assignees tags status)
    (fun req =>
       method req = POST
       /\ headers req = ClickUpService.self_headers clickup
       /\ json req
          = Some (ClickUpService.create_task_data name description due_date
                    priority (Agent.false_if_None due_date_time)
                    time_estimate start_date
                    (Agent.false_if_None start_date_time)
                    assignees_list tags_list status VNone)).
Proof.
  intros Hinit Ha Ht w. eexists. split.
  - erewrite create_clickup_task_eq by eassumption. apply call_world.
  - simpl. auto.
Qed.

(** Binding a validated argument. *)
Lemma bind_required {A B} (dec : value -> option A) args key v a
    (k : A -> M B) w :
  args !! key = Some v -> dec v = Some a ->
  (x <- Agent.required dec args key ;; k x) w = k a w.
Proof. intros Hl Hd. unfold Agent.required. rewrite Hl, Hd. reflexivity. Qed.

Lemma bind_optional_absent {A B} (dec : value -> option A) dflt args key
    (k : option A -> M B) w :
  args !! key = None ->
  (x <- Agent.optional dec dflt args key ;; k x) w = k dflt w.
Proof. intros Hl. unfold Agent.optional. rewrite Hl. reflexivity. Qed.

Lemma bind_optional_present {A B} (dec : value -> option A) dflt args key v a
    (k : option A -> M B) w :
  args !! key = Some v -> not_None v = true -> dec v = Some a ->
  (x <- Agent.optional dec dflt args key ;; k x) w = k (Some a) w.
Proof.
  intros Hl Hv Hd. unfold Agent.optional. rewrite Hl, Hd.
  destruct v; try reflexivity. discriminate.
Qed.

(** C9. Every [create_task] request carries [name], [due_date_time] and
    [start_date_time]; each of the other optional fields is in the payload
    exactly when its value is truthy, so an empty string, a zero or an empty
    list is left out. The same holds for the request of the
    [create_clickup_task] tool, where the two flags are [False] when the
    caller passes [None] or nothing. *)
Theorem create_task_payload_three_fields_always
    remote environ clickup list_id name description due_date priority
    time_estimate start_date assignees tags status assignees_list tags_list :
  ClickUpService.init environ = inr clickup ->
  Agent.loads_if_truthy assignees = inr assignees_list ->
  Agent.loads_if_truthy tags = inr tags_list ->
  (forall due_date_time start_date_time assignees_value tags_value
          custom_fields,
     Spec.sends_one
       (ClickUpService.create_task remote clickup list_id name description
          due_date priority due_date_time time_estimate start_date
          start_date_time assignees_value tags_value status custom_fields)
       (fun req => exists data,
          json req = Some data
          /\ Spec.create_task_fields data name description due_date priority
               due_date_time time_estimate start_date start_date_time
               assignees_value tags_value status custom_fields))
  /\ (forall due_date_time start_date_time,
        Spec.sends_one
          (Agent.create_clickup_task remote environ list_id name description
             due_date priority due_date_time time_estimate start_date
             start_date_time assignees tags status)
          (fun req => exists data,
             json req = Some data
             /\ Spec.create_task_fields data name description due_date
                  priority (default false due_date_time) time_estimate
                  start_date (default false start_date_time)
                  assignees_list tags_list status VNone))
  /\ Spec.sends_one
       (Agent.invoke (Agent.create_clickup_task_tool remote environ)
          (<["list_id" := VStr list_id]> (<["name" := VStr name]> ∅)))
       (fun req =>
          json req
          = Some (<["start_date_time" := VBool false]>
                  (<["due_date_time" := VBool false]>
                   (<["name" := VStr name]> ∅)))).
Proof.
  intros Hinit Ha Ht. split; [|split].
  - intros dt st av tv cf w.
    destruct (create_task_sends remote clickup list_id name description
                due_date priority dt time_estimate start_date st av tv
                status cf w) as (req & Hw & _ & _ & Hj).
    exists req. split; [exact Hw|]. eexists. split; [exact Hj|].
    apply create_task_data_fields.
  - intros dt st w.
    destruct (create_clickup_task_sends remote environ clickup list_id name
                description due_date priority dt time_estimate start_date st
                assignees tags status assignees_list tags_list
                Hinit Ha Ht w) as (req & Hw & _ & _ & Hj).
    exists req. split; [exact Hw|]. eexists. split; [exact Hj|].
    replace (default false dt) with (Agent.false_if_None dt)
      by (destruct dt; reflexivity).
    replace (default false st) with (Agent.false_if_None st)
      by (destruct st; reflexivity).
    apply create_task_data_fields.
  - intros w. simpl.
    erewrite (bind_required Agent.as_str _ "list_id");
      [| by simplify_map_eq | reflexivity].
    erewrite (bind_required Agent.as_str _ "name");
      [| by simplify_map_eq | reflexivity].
    do 10 (rewrite bind_optional_absent by (by simplify_map_eq)).
    destruct (create_clickup_task_sends remote environ clickup list_id name
                None None None (Some false) None None (Some false) None None
                None VNone VNone Hinit eq_refl eq_refl w)
      as (req & Hw & _ & _ & Hj).
    exists req. split; [exact Hw|]. rewrite Hj. reflexivity.
Qed.

(** Witness of C9: an empty description, a zero priority and an empty list
    of assignees are left out of the payload of a configured client. *)
Lemma create_task_payload_three_fields_always_witness :
  ClickUpService.init Sample.environ = inr Sample.clickup
  /\ Spec.sends_one
       (Agent.create_clickup_task Sample.remote Sample.environ "901"
          "Write report" (Some "") None (Some 0) None None None None
          (Some "[]") None None)
       (fun req => exists data,
          json req = Some data
          /\ Spec.create_task_fields data "Write report" (Some "") None
               (Some 0) false None None false (VList []) VNone None VNone).
Proof.
  split; [reflexivity|].
  destruct (create_task_payload_three_fields_always Sample.remote
              Sample.environ Sample.clickup "901" "Write report" (Some "")
              None (Some 0) None None (Some "[]") None None (VList []) VNone)
    as (_ & H & _); [reflexivity..|].
  exact (H None None).
Defined.

(** ** The payload of [update_task] *)

Lemma update_task_data_fields name description status priority due_date
    due_date_time time_estimate start_date start_date_time assignees
    archived :
  Spec.update_task_fields
    (ClickUpService.update_task_data name description status priority
       due_date due_date_time time_estimate start_date start_date_time
       assignees archived)
    name description status priority due_date due_date_time time_estimate
    start_date start_date_time assignees archived.
Proof.
  unfold Spec.update_task_fields, ClickUpService.update_task_data.
  repeat (split; [payload_lookup|]).
  payload_dom.
Qed.

Lemma update_task_sends remote self task_id name description status priority
    due_date due_date_time time_estimate start_date start_date_time assignees
    archived :
  Spec.sends_one
    (ClickUpService.update_task remote self task_id name description status
       priority due_date due_date_time time_estimate start_date
       start_date_time assignees archived)
    (fun req =>
       method req = PUT
       /\ headers req = ClickUpService.self_headers self
       /\ json req
          = Some (ClickUpService.update_task_data name description status
                    priority due_date due_date_time time_estimate start_date
                    start_date_time assignees archived)).
Proof.
  intros w. eexists. split.
  - unfold ClickUpService.update_task. apply call_world.
  - simpl. auto.
Qed.

(** C6, as the code has it. The payload of [update_task] holds a field only
    for an argument that was provided (is not [None]); every provided
    argument is in the payload, except that [name], [description] and
    [status] are left out when they are the empty string. With only
    [status="done"] the payload is exactly that one field. *)
Theorem update_task_payload_only_provided_fields
    remote self task_id name description status priority due_date
    due_date_time time_estimate start_date start_date_time assignees
    archived :
  Spec.sends_one
    (ClickUpService.update_task remote self task_id name description status
       priority due_date due_date_time time_estimate start_date
       start_date_time assignees archived)
    (fun req => exists data,
       method req = PUT
       /\ json req = Some data
       /\ Spec.update_task_fields data name description status priority
            due_date due_date_time time_estimate start_date start_date_time
            assignees archived)
  /\ ClickUpService.update_task_data None None (Some "done") None None None
       None None None VNone None
     = {[ "status" := VStr "done" ]}.
Proof.
  split; [|reflexivity].
  intros w.
  destruct (update_task_sends remote self task_id name description status
              priority due_date due_date_time time_estimate start_date
              start_date_time assignees archived w)
    as (req & Hw & Hm & _ & Hj).
  exists req. split; [exact Hw|]. eexists. split; [exact Hm|].
  split; [exact Hj|]. apply update_task_data_fields.
Qed.

(** C6 as stated fails: a [name] that is provided as the empty string is
    not in the payload, which is then empty. *)
Lemma update_task_drops_provided_empty_name :
  ClickUpService.update_task_data (Some "") None None None None None None
    None None VNone None !! "name" = None
  /\ exists req,
       (ClickUpService.update_task Sample.remote Sample.clickup "86et5jp8a"
          (Some "") None None None None None None None None VNone None
          Sample.w0).2
       = after Sample.w0 req
       /\ json req = Some ∅.
Proof.
  split; [reflexivity|].
  eexists. split; [apply call_world|]. reflexivity.
Qed.

(** ** The priority of a new task *)

(** C7, as the code has it. Neither the tool nor the client checks that
    [priority] is one of 1, 2, 3, 4: every provided priority other than 0,
    so each of 1 (urgent), 2 (high), 3 (normal) and 4 (low), is the value
    of the payload's [priority] field, unchanged; for 0 and for [None] the
    field is left out. *)
Theorem create_task_priority_forwarded_unchanged
    remote environ clickup list_id name description due_date priority
    due_date_time time_estimate start_date start_date_time assignees tags
    status assignees_list tags_list :
  ClickUpService.init environ = inr clickup ->
  Agent.loads_if_truthy assignees = inr assignees_list ->
  Agent.loads_if_truthy tags = inr tags_list ->
  Spec.sends_one
    (Agent.create_clickup_task remote environ list_id name description
       due_date priority due_date_time time_estimate start_date
       start_date_time assignees tags status)
    (fun req => exists data,
       json req = Some data
       /\ data !! "priority"
          = match priority with
            | Some p => if p =? 0 then None else Some (VInt p)
            | None => None
            end).
Proof.
  intros Hinit Ha Ht w.
  destruct (create_clickup_task_sends remote environ clickup list_id name
              description due_date priority due_date_time time_estimate
              start_date start_date_time assignees tags status
              assignees_list tags_list Hinit Ha Ht w)
    as (req & Hw & _ & _ & Hj).
  exists req. split; [exact Hw|]. eexists. split; [exact Hj|].
  rewrite create_task_data_priority.
  destruct priority as [p|]; simpl; [|reflexivity].
  unfold int_truthy. destruct (p =? 0); reflexivity.
Qed.

(** Witness of C7: priority 1 (urgent) reaches the payload as 1. *)
Lemma create_task_priority_forwarded_unchanged_witness :
  Spec.sends_one
    (Agent.create_clickup_task Sample.remote Sample.environ "901"
       "Write report" None None (Some 1) None None None None None None None)
    (fun req => exists data,
       json req = Some data /\ data !! "priority" = Some (VInt 1)).
Proof.
  exact (create_task_priority_forwarded_unchanged Sample.remote
           Sample.environ Sample.clickup "901" "Write report" None None
           (Some 1) None None None None None None None VNone VNone
           eq_refl eq_refl eq_refl).
Defined.

(** C7 as stated fails: a priority of 5, outside 1..4, is not rejected; the
    tool returns the answer of the remote service and the request carries
    the 5. *)
Lemma create_task_accepts_priority_outside_range :
  let req :=
    {| method := POST;
       url := "https://api.clickup.com/api/v2/list/901/task";
       headers := ClickUpService.self_headers Sample.clickup;
       json := Some (<["priority" := VInt 5]>
                     (<["start_date_time" := VBool false]>
                      (<["due_date_time" := VBool false]>
                       (<["name" := VStr "Write report"]> ∅)))) |} in
  Agent.create_clickup_task Sample.remote Sample.environ "901"
    "Write report" None None (Some 5) None None None None None None None
    Sample.w0
  = (inr (VDict ∅), after Sample.w0 req).
Proof. vm_compute. reflexivity. Qed.

(** ** Configuration and headers of the client *)

Lemma every_method_sends_with_own_headers remote self :
  Spec.every_method_sends_with remote self (ClickUpService.self_headers self).
Proof.
  unfold Spec.every_method_sends_with.
  repeat split; intros; intros w; eexists;
    (split; [apply call_world | reflexivity]).
Qed.

(** C8. Without [CLICKUP_API_KEY] or without [CLICKUP_TEAM_ID] the
    constructor of the client raises [ValueError] and no instance exists.
    (a variable set to the empty string counts as missing).
    With both set (and not empty) the instance has the headers
    [Authorization] (the API key), [Content-Type: application/json] and
    [Accept: application/json], and every method sends its request with
    exactly these headers. *)
Theorem client_requires_configuration_and_sends_headers
    (environ : gmap string string) :
  (opt_truthy str_truthy (environ !! "CLICKUP_API_KEY") = false
   \/ opt_truthy str_truthy (environ !! "CLICKUP_TEAM_ID") = false ->
   exists msg, ClickUpService.init environ = inl (ValueError msg))
  /\ (forall key team,
        environ !! "CLICKUP_API_KEY" = Some key ->
        environ !! "CLICKUP_TEAM_ID" = Some team ->
        str_truthy key = true -> str_truthy team = true ->
        exists self,
          ClickUpService.init environ = inr self
          /\ ClickUpService.self_headers self
             = {[ "Authorization" := key;
                  "Content-Type" := "application/json";
                  "Accept" := "application/json" ]}
          /\ forall remote,
               Spec.every_method_sends_with remote self
                 {[ "Authorization" := key;
                    "Content-Type" := "application/json";
                    "Accept" := "application/json" ]}).
Proof.
  split.
  - unfold ClickUpService.init.
    destruct (environ !! "CLICKUP_API_KEY") as [k|]; simpl; [|eauto].
    destruct (str_truthy k); [|eauto].
    destruct (environ !! "CLICKUP_TEAM_ID") as [t|]; simpl; [|eauto].
    destruct (str_truthy t); [|eauto].
    intros [?|?]; discriminate.
  - intros key team Hk Ht Hkey Hteam. unfold ClickUpService.init.
    rewrite Hk, Ht, Hkey, Hteam. eexists. split; [reflexivity|].
    assert (Hh : (<["Accept" := "application/json"]>
                  (<["Content-Type" := "application/json"]>
                   (<["Authorization" := key]> ∅)) : gmap string string)
                 = {[ "Authorization" := key;
                      "Content-Type" := "application/json";
                      "Accept" := "application/json" ]}).
    { apply map_eq. intros k.
      destruct (decide (k = "Accept")) as [->|];
        [by simplify_map_eq|].
      destruct (decide (k = "Content-Type")) as [->|];
        [by simplify_map_eq|].
      destruct (decide (k = "Authorization")) as [->|];
        by simplify_map_eq. }
    simpl. split; [exact Hh|].
    intros remote. rewrite <- Hh.
    apply (every_method_sends_with_own_headers remote
             {| ClickUpService.api_key := key;
                ClickUpService.team_id := team;
                ClickUpService.self_headers := _ |}).
Qed.

(** Witness of C8: an empty environment on one side, a complete one on the
    other. *)
Lemma client_requires_configuration_and_sends_headers_witness :
  (exists msg, ClickUpService.init ∅ = inl (ValueError msg))
  /\ exists self,
       ClickUpService.init Sample.environ = inr self
       /\ ClickUpService.self_headers self
          = {[ "Authorization" := "pk_test";
               "Content-Type" := "application/json";
               "Accept" := "application/json" ]}
       /\ forall remote,
            Spec.every_method_sends_with remote self
              {[ "Authorization" := "pk_test";
                 "Content-Type" := "application/json";
                 "Accept" := "application/json" ]}.
Proof.
  split.
  - apply (client_requires_configuration_and_sends_headers ∅).
    left. reflexivity.
  - apply (proj2 (client_requires_configuration_and_sends_headers
                    Sample.environ) "pk_test" "9001"); reflexivity.
Defined.

(** ** JSON-encoded arguments of the tools *)

(** What [set_clickup_custom_field_value] does with each outcome of the
    decoder, in a configured process. *)
Lemma set_custom_field_value_by_decoder_outcome
    remote environ clickup task_id field_id (value : string) :
  ClickUpService.init environ = inr clickup ->
  let tool :=
    Agent.set_clickup_custom_field_value remote environ task_id field_id
      value in
  match Json.loads value with
  | inr parsed =>
      Spec.sends_one tool
        (fun req =>
           method req = POST /\ json req = Some {[ "value" := parsed ]})
  | inl JSONDecodeError =>
      Spec.sends_one tool
        (fun req =>
           method req = POST /\ json req = Some {[ "value" := VStr value ]})
  | inl e => Spec.fails_with e tool
  end.
Proof.
  intros Hinit tool.
  assert (Hsend : forall v,
            Agent.loads_or_raw value = inr v ->
            Spec.sends_one tool
              (fun req =>
                 method req = POST /\ json req = Some {[ "value" := v ]})).
  { intros v Hv w. eexists. split.
    - unfold tool, Agent.set_clickup_custom_field_value, Agent.ClickUpService.
      rewrite Hinit, bind_lift_inr, Hv, bind_lift_inr, bind_ret_r.
      unfold ClickUpService.set_custom_field_value. apply call_world.
    - simpl. split; reflexivity. }
  assert (Hfail : forall e,
            Agent.loads_or_raw value = inl e -> Spec.fails_with e tool).
  { intros e He w.
    unfold tool, Agent.set_clickup_custom_field_value, Agent.ClickUpService.
    rewrite Hinit, bind_lift_inr, He. reflexivity. }
  unfold Agent.loads_or_raw in Hsend, Hfail.
  destruct (Json.loads value) as [[]|parsed]; auto.
Qed.

(** C5 fails on the code at an integer of 4301 digits: the decoder raises
    [ValueError], which the tool's [except json.JSONDecodeError] does not
    catch, so in a configured process the tool raises and sends nothing,
    where the comment in the tool promises the raw string. A text that is
    no JSON, like red, does fall back to the raw string, and 42 goes out
    as the number 42. *)
Theorem set_custom_field_value_raises_on_long_integer :
  let value := Sample.ones 4301 in
  let error :=
    ValueError
      "Exceeds the limit (4300 digits) for integer string conversion" in
  Json.loads value = inl error
  /\ (forall w,
        Agent.set_clickup_custom_field_value Sample.remote Sample.environ
          "86et5jp8a" "f1" value w
        = (inl error, w))
  /\ Agent.loads_or_raw "42" = inr (VInt 42)
  /\ Agent.loads_or_raw "red" = inr (VStr "red").
Proof.
  intros value error.
  assert (Hl : Json.loads value = inl error) by (vm_compute; reflexivity).
  split; [exact Hl|]. split; [|split; vm_compute; reflexivity].
  pose proof (set_custom_field_value_by_decoder_outcome Sample.remote
                Sample.environ Sample.clickup "86et5jp8a" "f1" value
                eq_refl) as H.
  cbv zeta in H. rewrite Hl in H. exact H.
Qed.

(** ** The dispatch step never raises because of a tool *)

Lemma run_one_total registry call w :
  exists m w', Agent.run_one registry call w = (inr m, w').
Proof.
  unfold Agent.run_one. destruct (find _ registry) as [t|].
  - destruct (Agent.invoke t _ _) as [r w']. eauto.
  - unfold ret. eauto.
Qed.

Lemma run_all_total registry calls :
  forall w, exists ms w',
    Agent.run_all registry calls w = (inr ms, w')
    /\ length ms = length calls.
Proof.
  induction calls as [|call rest IH]; intros w; simpl.
  - unfold ret. eauto.
  - destruct (run_one_total registry call w) as (m & w1 & H1).
    destruct (IH w1) as (ms & w2 & H2 & Hlen).
    exists (m :: ms), w2. unfold bind. rewrite H1, H2. simpl.
    split; [reflexivity | by rewrite Hlen].
Qed.

Lemma ToolNode_total registry state content calls w :
  last (Agent.messages state) = Some (Agent.AIMessage content calls) ->
  exists outputs w',
    Agent.ToolNode registry state w
    = (inr {[ "messages" := Agent.SMessages outputs ]}, w')
    /\ length outputs = length calls.
Proof.
  intros Hlast. unfold Agent.ToolNode. rewrite Hlast.
  destruct (run_all_total registry calls w) as (ms & w' & Hr & Hlen).
  exists ms, w'. unfold bind. rewrite Hr. auto.
Qed.

(** A [create_clickup_task] call whose [assignees] do not decode. *)
Lemma run_one_create_task_bad_assignees remote environ clickup list_id name
    s e cid w :
  ClickUpService.init environ = inr clickup ->
  str_truthy s = true -> Json.loads s = inl e ->
  let call :=
    {| Agent.name := "create_clickup_task";
       Agent.args := <["assignees" := VStr s]>
                     (<["name" := VStr name]>
                      (<["list_id" := VStr list_id]> ∅));
       Agent.id := cid |} in
  Agent.run_one (Agent.tools remote environ) call w
  = (inr (Agent.ToolMessage (inl e) "create_clickup_task" cid),
     Agent.note_invoked call w).
Proof.
  intros Hinit Hs He call. unfold Agent.run_one. simpl.
  erewrite (bind_required Agent.as_str _ "list_id");
    [| by simplify_map_eq | reflexivity].
  erewrite (bind_required Agent.as_str _ "name");
    [| by simplify_map_eq | reflexivity].
  do 7 (rewrite bind_optional_absent by (by simplify_map_eq)).
  erewrite (bind_optional_present Agent.as_str _ _ "assignees");
    [| by simplify_map_eq | reflexivity | reflexivity].
  do 2 (rewrite bind_optional_absent by (by simplify_map_eq)).
  erewrite create_clickup_task_parse_error; [reflexivity | exact Hinit |].
  left. simpl. rewrite Hs. exact He.
Qed.

(** C4, as the code has it. In a configured process, [assignees] and [tags]
    of [create_clickup_task] are decoded as JSON when they are non-empty
    strings ([None] and the empty string both stand for no value and are
    not decoded). When both decode, one request goes out and its payload is
    built from the decoded values; [[123,456]] arrives as the list of 123
    and 456. When one of them does not decode, the tool raises the
    decoder's exception before any request is sent ([JSONDecodeError] for
    a text that is no JSON, as for [not json]), and the dispatch step
    answers the call with an error tool message that carries it: the
    dispatch step returns normally for every tool call, so the turn goes
    on. *)
Theorem create_task_decodes_nonempty_assignees_and_tags
    remote environ clickup list_id name description due_date priority
    due_date_time time_estimate start_date start_date_time assignees tags
    status :
  ClickUpService.init environ = inr clickup ->
  let tool :=
    Agent.create_clickup_task remote environ list_id name description
      due_date priority due_date_time time_estimate start_date
      start_date_time assignees tags status in
  (forall s, str_truthy s = true ->
     Agent.loads_if_truthy (Some s) = Json.loads s)
  /\ (forall assignees_list tags_list,
        Agent.loads_if_truthy assignees = inr assignees_list ->
        Agent.loads_if_truthy tags = inr tags_list ->
        Spec.sends_one tool
          (fun req =>
             json req
             = Some (ClickUpService.create_task_data name description
                       due_date priority (Agent.false_if_None due_date_time)
                       time_estimate start_date
                       (Agent.false_if_None start_date_time)
                       assignees_list tags_list status VNone)))
  /\ (forall e,
        Agent.loads_if_truthy assignees = inl e
        \/ (exists assignees_list,
              Agent.loads_if_truthy assignees = inr assignees_list)
           /\ Agent.loads_if_truthy tags = inl e ->
        forall w, tool w = (inl e, w))
  /\ (forall s e cid w,
        str_truthy s = true -> Json.loads s = inl e ->
        let call :=
          {| Agent.name := "create_clickup_task";
             Agent.args := <["assignees" := VStr s]>
                           (<["name" := VStr name]>
                            (<["list_id" := VStr list_id]> ∅));
             Agent.id := cid |} in
        Agent.run_one (Agent.tools remote environ) call w
        = (inr (Agent.ToolMessage (inl e) "create_clickup_task" cid),
           Agent.note_invoked call w))
  /\ (forall state content calls w,
        last (Agent.messages state) = Some (Agent.AIMessage content calls) ->
        exists outputs w',
          Agent.ToolNode (Agent.tools remote environ) state w
          = (inr {[ "messages" := Agent.SMessages outputs ]}, w')
          /\ length outputs = length calls)
  /\ Json.loads "[123,456]" = inr (VList [VInt 123; VInt 456])
  /\ Json.loads "not json" = inl JSONDecodeError.
Proof.
  intros Hinit tool.
  split; [intros s Hs; simpl; by rewrite Hs|].
  split.
  { intros al tl Ha Ht w.
    destruct (create_clickup_task_sends remote environ clickup list_id name
                description due_date priority due_date_time time_estimate
                start_date start_date_time assignees tags status al tl
                Hinit Ha Ht w) as (req & Hw & _ & _ & Hj).
    exists req. auto. }
  split.
  { intros e He w. unfold tool.
    by eapply create_clickup_task_parse_error. }
  split.
  { intros s e cid w Hs He call.
    by eapply run_one_create_task_bad_assignees. }
  split; [intros; by eapply ToolNode_total|].
  split; reflexivity.
Qed.

(** Witness of C4: list [[123,456]] in the sample configuration. *)
Lemma create_task_decodes_nonempty_assignees_and_tags_witness :
  Spec.sends_one
    (Agent.create_clickup_task Sample.remote Sample.environ "901"
       "Write report" None None None None None None None (Some "[123,456]")
       None None)
    (fun req => exists data,
       json req = Some data
       /\ data !! "assignees" = Some (VList [VInt 123; VInt 456]))
  /\ forall w,
       Agent.create_clickup_task Sample.remote Sample.environ "901"
         "Write report" None None None None None None None (Some "not json")
         None None w
       = (inl JSONDecodeError, w).
Proof.
  split.
  - intros w.
    destruct (create_task_decodes_nonempty_assignees_and_tags Sample.remote
                Sample.environ Sample.clickup "901" "Write report" None None
                None None None None None (Some "[123,456]") None None
                eq_refl)
      as (_ & H & _).
    destruct (H (VList [VInt 123; VInt 456]) VNone eq_refl eq_refl w)
      as (req & Hw & Hj).
    exists req. split; [exact Hw|]. eexists. split; [exact Hj|].
    reflexivity.
  - destruct (create_task_decodes_nonempty_assignees_and_tags Sample.remote
                Sample.environ Sample.clickup "901" "Write report" None None
                None None None None None (Some "not json") None None
                eq_refl)
      as (_ & _ & H & _).
    apply (H JSONDecodeError). left. reflexivity.
Defined.

(** C4 as stated fails: the empty string is a provided value that is no
    JSON text, yet the tool neither decodes it nor reports an error; the
    request goes out without the field. *)
Lemma create_task_drops_empty_assignees_without_error :
  let req :=
    {| method := POST;
       url := "https://api.clickup.com/api/v2/list/901/task";
       headers := ClickUpService.self_headers Sample.clickup;
       json := Some (<["start_date_time" := VBool false]>
                     (<["due_date_time" := VBool false]>
                      (<["name" := VStr "Write report"]> ∅))) |} in
  Json.loads "" = inl JSONDecodeError
  /\ Agent.create_clickup_task Sample.remote Sample.environ "901"
       "Write report" None None None None None None None (Some "") None None
       Sample.w0
     = (inr (VDict ∅), after Sample.w0 req).
Proof. split; vm_compute; reflexivity. Qed.

(** ** The turn controller *)

Section Controller.

Variable remote : list Request -> Request -> exn + Response.
Variable environ : gmap string string.
Variable ainvoke : list Agent.BoundTool -> list Agent.Message
                   -> exn + Agent.Message.

Abbreviation chat_node := (Agent.chat_node ainvoke).
Abbreviation reasoning := (Agent.reasoning ainvoke).
Abbreviation run := (Agent.run remote environ ainvoke).
Abbreviation graph := (Agent.graph remote environ ainvoke).

Lemma action_matches_true first action :
  Agent.action_matches first action = true
  <-> action !! "name" = Some (VStr (Agent.name first)).
Proof.
  unfold Agent.action_matches.
  destruct (action !! "name") as [[| | | |n| |]|]; try (split; congruence).
  rewrite String.eqb_eq. split; congruence.
Qed.

Lemma some_action_matches first (actions : list (gmap string value)) :
  existsb (Agent.action_matches first) actions = true
  <-> exists action,
        action ∈ actions /\ action !! "name" = Some (VStr (Agent.name first)).
Proof.
  rewrite existsb_exists. split; intros (a & Hin & Hm); exists a.
  - split; [by apply list_elem_of_In | by apply action_matches_true].
  - split; [by apply list_elem_of_In | by apply action_matches_true].
Qed.

Lemma no_action_matches first (actions : list (gmap string value)) :
  existsb (Agent.action_matches first) actions = false
  <-> forall action,
        action ∈ actions -> action !! "name" ≠ Some (VStr (Agent.name first)).
Proof.
  rewrite <- not_true_iff_false, some_action_matches. split.
  - intros Hno a Hin Hm. apply Hno. eauto.
  - intros Hall (a & Hin & Hm). exact (Hall a Hin Hm).
Qed.

Lemma chat_node_eq state response w :
  reasoning state = inr response ->
  chat_node state w
  = (inr {| Agent.goto := Spec.next_node state response;
            Agent.update := {[ "messages" := Agent.SMessages [response] ]} |},
     w).
Proof.
  intros Hr. unfold Agent.chat_node, Spec.next_node. rewrite Hr, bind_lift_inr.
  destruct response as [c|c|c [|first rest]|r t i]; try reflexivity.
  simpl. destruct (existsb _ _); reflexivity.
Qed.

Lemma chat_node_raises state e w :
  reasoning state = inl e -> chat_node state w = (inl e, w).
Proof. intros Hr. unfold Agent.chat_node. by rewrite Hr. Qed.

Lemma run_end limit state seen w :
  run limit "__end__" state seen w
  = ({| Agent.outcome := Agent.Finished state; Agent.visited := seen |}, w).
Proof. destruct limit; reflexivity. Qed.

Lemma run_chat_node limit state seen w :
  run (S limit) "chat_node" state seen w
  = match chat_node state w with
    | (inr cmd, w') =>
        run limit (Agent.goto cmd)
          (Agent.apply_update state (Agent.update cmd))
          (seen ++ ["chat_node"]) w'
    | (inl e, w') =>
        ({| Agent.outcome := Agent.Raised e;
            Agent.visited := seen ++ ["chat_node"] |}, w')
    end.
Proof. reflexivity. Qed.

Lemma run_tool_node limit state seen w :
  run (S limit) "tool_node" state seen w
  = match Agent.ToolNode (Agent.tools remote environ) state w with
    | (inr u, w') =>
        run limit "chat_node" (Agent.apply_update state u)
          (seen ++ ["tool_node"]) w'
    | (inl e, w') =>
        ({| Agent.outcome := Agent.Raised e;
            Agent.visited := seen ++ ["tool_node"] |}, w')
    end.
Proof. reflexivity. Qed.

(** A turn whose first answer sends the reasoning node to the end. *)
Lemma graph_one_reasoning_step limit state response w :
  reasoning state = inr response ->
  Spec.next_node state response = "__end__" ->
  graph (S limit) state w
  = ({| Agent.outcome :=
          Agent.Finished
            (Agent.apply_update state
               {[ "messages" := Agent.SMessages [response] ]});
        Agent.visited := ["chat_node"] |}, w).
Proof.
  intros Hr Hn. unfold Agent.graph.
  rewrite run_chat_node, (chat_node_eq _ _ _ Hr). simpl Agent.goto.
  rewrite Hn, run_end. reflexivity.
Qed.

Lemma apply_update_messages state ms :
  Agent.messages
    (Agent.apply_update state {[ "messages" := Agent.SMessages ms ]})
  = (Agent.messages state ++ ms)%list.
Proof. reflexivity. Qed.

End Controller.

(** C1. When the first tool call of the model's answer has the name of one
    of the caller's actions, the reasoning node returns [goto="__end__"]
    whatever the later tool calls of the same message are: the turn is
    finished after that one node, the answer is appended to the messages,
    no request was sent and no local tool was started. *)
Theorem first_call_external_halts_without_dispatch
    remote environ ainvoke state content first rest action limit w :
  Agent.reasoning ainvoke state
  = inr (Agent.AIMessage content (first :: rest)) ->
  action ∈ Agent.copilotkit_actions state ->
  action !! "name" = Some (VStr (Agent.name first)) ->
  let response := Agent.AIMessage content (first :: rest) in
  Agent.chat_node ainvoke state w
  = (inr {| Agent.goto := "__end__";
            Agent.update := {[ "messages" := Agent.SMessages [response] ]} |},
     w)
  /\ exists final,
       Agent.graph remote environ ainvoke (S limit) state w
       = ({| Agent.outcome := Agent.Finished final;
             Agent.visited := ["chat_node"] |}, w)
       /\ Agent.messages final = (Agent.messages state ++ [response])%list.
Proof.
  intros Hr Hin Hname response.
  assert (Hnext : Spec.next_node state response = "__end__").
  { unfold Spec.next_node. simpl.
    replace (existsb _ _) with true; [reflexivity|].
    symmetry. apply some_action_matches. eauto. }
  split.
  - rewrite (chat_node_eq ainvoke state response w Hr), Hnext. reflexivity.
  - eexists. split.
    + by apply graph_one_reasoning_step.
    + reflexivity.
Qed.

(** Witness of C1: the model asks for the caller's [navigate] first and for
    the local [get_clickup_spaces] second; nothing is dispatched. *)
Lemma first_call_external_halts_without_dispatch_witness :
  exists final,
    Agent.graph Sample.remote Sample.environ
      (Sample.asks [Sample.call_navigate; Sample.call_spaces]) 25
      Sample.state_with_action Sample.w0
    = ({| Agent.outcome := Agent.Finished final;
          Agent.visited := ["chat_node"] |}, Sample.w0)
    /\ Agent.messages final
       = [Agent.HumanMessage "List my spaces";
          Agent.AIMessage "" [Sample.call_navigate; Sample.call_spaces]].
Proof.
  apply (first_call_external_halts_without_dispatch Sample.remote
           Sample.environ
           (Sample.asks [Sample.call_navigate; Sample.call_spaces])
           Sample.state_with_action "" Sample.call_navigate
           [Sample.call_spaces] {[ "name" := VStr "navigate" ]} 24 Sample.w0).
  - reflexivity.
  - apply list_elem_of_here.
  - reflexivity.
Defined.

(** C3. When the model's answer requests no tool, the turn is finished
    after exactly one reasoning step and no dispatch step; the answer is
    the one message appended to the conversation, and nothing else
    happened outside. *)
Theorem no_tool_call_done_after_one_reasoning_step
    remote environ ainvoke state response limit w :
  Agent.reasoning ainvoke state = inr response ->
  Agent.tool_calls_of response = [] ->
  exists final,
    let result := Agent.graph remote environ ainvoke (S limit) state w in
    result.1.(Agent.outcome) = Agent.Finished final
    /\ result.2 = w
    /\ Agent.count_node "chat_node" result.1 = 1%nat
    /\ Agent.count_node "tool_node" result.1 = 0%nat
    /\ Agent.messages final = (Agent.messages state ++ [response])%list.
Proof.
  intros Hr Hcalls.
  assert (Hnext : Spec.next_node state response = "__end__").
  { unfold Spec.next_node. by rewrite Hcalls. }
  eexists. simpl.
  rewrite (graph_one_reasoning_step remote environ ainvoke limit state
             response w Hr Hnext).
  simpl. repeat split; reflexivity.
Qed.

(** Witness of C3: a model that answers in plain text. *)
Lemma no_tool_call_done_after_one_reasoning_step_witness :
  exists final,
    let result :=
      Agent.graph Sample.remote Sample.environ (Sample.asks []) 25
        Sample.state Sample.w0 in
    result.1.(Agent.outcome) = Agent.Finished final
    /\ result.2 = Sample.w0
    /\ Agent.count_node "chat_node" result.1 = 1%nat
    /\ Agent.count_node "tool_node" result.1 = 0%nat
    /\ Agent.messages final
       = [Agent.HumanMessage "List my spaces"; Agent.AIMessage "" []].
Proof.
  exact (no_tool_call_done_after_one_reasoning_step Sample.remote
           Sample.environ (Sample.asks []) Sample.state
           (Agent.AIMessage "" []) 24 Sample.w0 eq_refl eq_refl).
Defined.

(** ** What the nodes write to the state *)

Lemma chat_node_update ainvoke state w cmd w' :
  Agent.chat_node ainvoke state w = (inr cmd, w') ->
  exists response,
    Agent.update cmd = {[ "messages" := Agent.SMessages [response] ]}.
Proof.
  destruct (Agent.reasoning ainvoke state) as [e|response] eqn:Hr.
  - rewrite (chat_node_raises ainvoke state e w Hr). discriminate.
  - rewrite (chat_node_eq ainvoke state response w Hr).
    intros [= <- _]. eauto.
Qed.

Lemma ToolNode_update registry state w u w' :
  Agent.ToolNode registry state w = (inr u, w') ->
  exists outputs, u = {[ "messages" := Agent.SMessages outputs ]}.
Proof.
  unfold Agent.ToolNode.
  destruct (last (Agent.messages state)) as [[c|c|c calls|r t i]|];
    try discriminate.
  destruct (run_all_total registry calls w) as (ms & w1 & Hr & _).
  unfold bind. rewrite Hr. intros [= <- _]. eauto.
Qed.

Lemma same_cache_apply_update state ms :
  Spec.same_cache
    (Agent.apply_update state {[ "messages" := Agent.SMessages ms ]}) state.
Proof. repeat split. Qed.

Lemma same_cache_trans a b c :
  Spec.same_cache a b -> Spec.same_cache b c -> Spec.same_cache a c.
Proof.
  unfold Spec.same_cache. intros (?&?&?&?) (?&?&?&?).
  repeat split; congruence.
Qed.

Lemma run_same_cache remote environ ainvoke limit :
  forall node state seen w final,
    Agent.outcome (Agent.run remote environ ainvoke limit node state seen w).1
    = Agent.Finished final ->
    Spec.same_cache final state.
Proof.
  induction limit as [|limit IH]; intros node state seen w final.
  - simpl. destruct (String.eqb node "__end__"); simpl; [|discriminate].
    intros [= <-]. repeat split.
  - simpl. destruct (String.eqb node "__end__"); simpl.
    { intros [= <-]. repeat split. }
    destruct (String.eqb node "chat_node").
    { destruct (Agent.chat_node ainvoke state w) as [[e|cmd] w'] eqn:Hc;
        [simpl; discriminate|].
      destruct (chat_node_update _ _ _ _ _ Hc) as (response & ->).
      intros Hf. apply IH in Hf.
      eapply same_cache_trans; [exact Hf | apply same_cache_apply_update]. }
    destruct (String.eqb node "tool_node"); [|simpl; discriminate].
    destruct (Agent.ToolNode _ state w) as [[e|u] w'] eqn:Ht;
      [simpl; discriminate|].
    destruct (ToolNode_update _ _ _ _ _ Ht) as (outputs & ->).
    intros Hf. apply IH in Hf.
    eapply same_cache_trans; [exact Hf | apply same_cache_apply_update].
Qed.

(** C10. The update of the reasoning node, in both of its outcomes, and the
    update of the dispatch node have the single key [messages]; so in the
    state at the end of a turn [proverbs], [spaces], [lists] and [tasks]
    are what they were at its start. *)
Theorem nodes_write_only_messages remote environ ainvoke :
  (forall state w cmd w',
     Agent.chat_node ainvoke state w = (inr cmd, w') ->
     dom (Agent.update cmd) = {[ "messages" ]})
  /\ (forall state w u w',
        Agent.ToolNode (Agent.tools remote environ) state w = (inr u, w') ->
        dom u = {[ "messages" ]})
  /\ (forall limit state w final,
        Agent.outcome (Agent.graph remote environ ainvoke limit state w).1
        = Agent.Finished final ->
        Spec.same_cache final state).
Proof.
  split; [|split].
  - intros state w cmd w' Hc.
    destruct (chat_node_update _ _ _ _ _ Hc) as (response & ->).
    apply dom_singleton_L.
  - intros state w u w' Ht.
    destruct (ToolNode_update _ _ _ _ _ Ht) as (outputs & ->).
    apply dom_singleton_L.
  - intros limit state w final. unfold Agent.graph. apply run_same_cache.
Qed.

(** Witness of C10: a turn with one dispatch step keeps the cached space. *)
Lemma nodes_write_only_messages_witness :
  exists final,
    Agent.outcome
      (Agent.graph Sample.remote Sample.environ
         (Sample.asks [Sample.call_spaces]) 25 Sample.state Sample.w0).1
    = Agent.Finished final
    /\ Agent.spaces final = ["90183095898"].
Proof.
  eexists. split; [vm_compute; reflexivity|].
  pose proof (proj2 (proj2 (nodes_write_only_messages Sample.remote
                              Sample.environ
                              (Sample.asks [Sample.call_spaces])))
                25%nat Sample.state Sample.w0 _ eq_refl) as (_ & Hs & _).
  exact Hs.
Defined.

(** ** From reasoning to dispatch *)

Lemma run_one_unknown_tool registry call w :
  find (fun t => String.eqb (Agent.tool_name t) (Agent.name call)) registry
  = None ->
  Agent.run_one registry call w
  = (inr (Agent.ToolMessage (inl (InvalidToolName (Agent.name call)))
            (Agent.name call) (Agent.id call)), w).
Proof. intros Hf. unfold Agent.run_one. rewrite Hf. reflexivity. Qed.

(** C2, as the code has it. The reasoning node goes to the dispatch node
    exactly when the model's answer is an assistant message with at least
    one tool call and the name of the first one is the name of none of the
    caller's actions; otherwise it goes to the end. The local tools are not
    looked at for this decision. When the dispatch node meets a call whose
    name is no registered tool, it starts no tool for that call and answers
    it with an error tool message. *)
Theorem dispatch_iff_first_call_not_external
    ainvoke state response w :
  Agent.reasoning ainvoke state = inr response ->
  exists cmd,
    Agent.chat_node ainvoke state w = (inr cmd, w)
    /\ (Agent.goto cmd = "tool_node" \/ Agent.goto cmd = "__end__")
    /\ (Agent.goto cmd = "tool_node"
        <-> exists content first rest,
              response = Agent.AIMessage content (first :: rest)
              /\ forall action,
                   action ∈ Agent.copilotkit_actions state ->
                   action !! "name" ≠ Some (VStr (Agent.name first)))
    /\ forall registry call w',
         find (fun t => String.eqb (Agent.tool_name t) (Agent.name call))
           registry = None ->
         Agent.run_one registry call w'
         = (inr (Agent.ToolMessage (inl (InvalidToolName (Agent.name call)))
                   (Agent.name call) (Agent.id call)), w').
Proof.
  intros Hr. eexists. split; [apply (chat_node_eq ainvoke state response w Hr)|].
  simpl. unfold Spec.next_node.
  split; [|split; [|apply run_one_unknown_tool]].
  - destruct (Agent.tool_calls_of response) as [|first rest]; [by right|].
    destruct (existsb _ _); [by right | by left].
  - destruct response as [c|c|c [|first rest]|r t i]; simpl;
      try (split; [discriminate | intros (?&?&?&?&?); discriminate]).
    destruct (existsb _ _) eqn:He.
    + split; [discriminate|]. intros (c' & f' & r' & [= -> -> ->] & Hall).
      apply no_action_matches in Hall. congruence.
    + split; [|reflexivity]. intros _. exists c, first, rest.
      split; [reflexivity|]. by apply no_action_matches.
Qed.

(** Witness of C2: the model asks for the local [get_clickup_spaces] and
    the caller supplies no action. *)
Lemma dispatch_iff_first_call_not_external_witness :
  exists cmd,
    Agent.chat_node (Sample.asks [Sample.call_spaces]) Sample.state Sample.w0
    = (inr cmd, Sample.w0)
    /\ Agent.goto cmd = "tool_node".
Proof.
  destruct (dispatch_iff_first_call_not_external
              (Sample.asks [Sample.call_spaces]) Sample.state
              (Agent.AIMessage "" [Sample.call_spaces]) Sample.w0 eq_refl)
    as (cmd & Hc & _ & Hiff & _).
  exists cmd. split; [exact Hc|]. apply Hiff.
  exists "", Sample.call_spaces, []. split; [reflexivity|].
  intros action Hin. simpl in Hin. by apply elem_of_nil in Hin.
Defined.

(** C2 as stated fails: [archive_workspace] is neither a local tool nor an
    action of the caller, yet the reasoning node goes to the dispatch node;
    the turn runs a dispatch step, in which the second call of the same
    message, the local [get_clickup_spaces], is executed. *)
Lemma unknown_first_call_is_dispatched :
  let model := Sample.asks [Sample.call_unknown; Sample.call_spaces] in
  let result :=
    Agent.graph Sample.remote Sample.environ model 25 Sample.state
      Sample.w0 in
  find (fun t => String.eqb (Agent.tool_name t) "archive_workspace")
    (Agent.tools Sample.remote Sample.environ) = None
  /\ Agent.copilotkit_actions Sample.state = []
  /\ Agent.chat_node model Sample.state Sample.w0
     = (inr {| Agent.goto := "tool_node";
               Agent.update :=
                 {[ "messages" :=
                      Agent.SMessages
                        [Agent.AIMessage ""
                           [Sample.call_unknown; Sample.call_spaces]] ]} |},
        Sample.w0)
  /\ Agent.visited result.1 = ["chat_node"; "tool_node"; "chat_node"]
  /\ invoked result.2 = [("get_clickup_spaces", ∅)].
Proof. repeat split; vm_compute; reflexivity. Qed.

(** * Further properties of the client and of the tools *)

(** ** One request, one answer *)

Lemma call_round_trip remote self m u body :
  Spec.one_round_trip remote (ClickUpService.call remote self m u body).
Proof.
  intros w. eexists. split; [apply call_world|].
  unfold ClickUpService.call, ClickUpService.send, bind. simpl.
  destruct (remote _ _) as [e|r]; [reflexivity|].
  unfold ClickUpService.raise_for_status, ClickUpService.response_json.
  destruct (_ && _); reflexivity.
Qed.

(** Every method of the client is one round trip with the remote service:
    it sends a single request and never a second one; a transport
    exception is passed on; an answer with a status from 400 to 599 raises
    [HTTPError] with that status and its body is not decoded; for every
    other status the decoded body is returned, or [JSONDecodeError] when
    the body is no JSON text. *)
Theorem every_method_is_one_round_trip remote self :
  Spec.every_method remote self (Spec.one_round_trip remote).
Proof.
  unfold Spec.every_method.
  repeat split; intros; apply call_round_trip.
Qed.

(** ** Tools without configuration *)

Lemma ClickUpService_fails environ e {A} (k : ClickUpService.t -> M A) :
  ClickUpService.init environ = inl e ->
  Spec.fails_with e (clickup <- Agent.ClickUpService environ ;; k clickup).
Proof.
  intros Hinit w. unfold Agent.ClickUpService. rewrite Hinit. reflexivity.
Qed.

(** When the client cannot be constructed, every tool raises the error of
    the constructor before anything else happens: no argument is decoded
    and no request is sent. With [CLICKUP_API_KEY] or [CLICKUP_TEAM_ID]
    missing or empty that error is a [ValueError]. *)
Theorem tools_fail_before_any_request_without_configuration
    remote environ :
  opt_truthy str_truthy (environ !! "CLICKUP_API_KEY") = false
  \/ opt_truthy str_truthy (environ !! "CLICKUP_TEAM_ID") = false ->
  exists msg,
    ClickUpService.init environ = inl (ValueError msg)
    /\ Spec.every_tool remote environ (Spec.fails_with (ValueError msg)).
Proof.
  intros Hmissing.
  assert (exists msg, ClickUpService.init environ = inl (ValueError msg))
    as [msg Hinit].
  { unfold ClickUpService.init.
    destruct (environ !! "CLICKUP_API_KEY") as [k|]; simpl in *; [|eauto].
    destruct (str_truthy k); [|eauto].
    destruct (environ !! "CLICKUP_TEAM_ID") as [t|]; simpl in *; [|eauto].
    destruct (str_truthy t); [|eauto].
    destruct Hmissing; discriminate. }
  exists msg. split; [exact Hinit|].
  unfold Spec.every_tool.
  repeat split; intros; by apply ClickUpService_fails.
Qed.

Lemma tools_fail_before_any_request_without_configuration_witness :
  exists msg,
    ClickUpService.init {[ "CLICKUP_API_KEY" := "pk_test" ]}
    = inl (ValueError msg)
    /\ Spec.every_tool Sample.remote {[ "CLICKUP_API_KEY" := "pk_test" ]}
         (Spec.fails_with (ValueError msg)).
Proof.
  apply (tools_fail_before_any_request_without_configuration Sample.remote
           {[ "CLICKUP_API_KEY" := "pk_test" ]}).
  right. reflexivity.
Defined.

(** ** The reading tools and the deleting tool *)

(** In a configured process the four reading tools send exactly one [GET]
    request without a body, to the URL made of the team identifier of the
    configuration or of the identifier they were given, and
    [delete_clickup_task] sends exactly one [DELETE] request without a
    body; each returns the result of the client unchanged. *)
Theorem reading_tools_send_one_request_without_body
    remote environ clickup :
  ClickUpService.init environ = inr clickup ->
  let request m u :=
    {| method := m; url := u;
       headers := ClickUpService.self_headers clickup; json := None |} in
  let base := ClickUpService.BASE_URL in
  (forall w,
     Agent.get_clickup_spaces remote environ w
     = ClickUpService.get_spaces remote clickup w
     /\ (Agent.get_clickup_spaces remote environ w).2
        = after w (request GET
                     (base +:+ "/team/" +:+ ClickUpService.team_id clickup
                      +:+ "/space")))
  /\ (forall space_id w,
        Agent.get_clickup_lists remote environ space_id w
        = ClickUpService.get_lists remote clickup space_id w
        /\ (Agent.get_clickup_lists remote environ space_id w).2
           = after w (request GET
                        (base +:+ "/space/" +:+ space_id +:+ "/list")))
  /\ (forall list_id w,
        Agent.get_clickup_tasks remote environ list_id w
        = ClickUpService.get_tasks remote clickup list_id w
        /\ (Agent.get_clickup_tasks remote environ list_id w).2
           = after w (request GET
                        (base +:+ "/list/" +:+ list_id +:+ "/task")))
  /\ (forall task_id w,
        Agent.get_clickup_task_by_id remote environ task_id w
        = ClickUpService.get_task_by_id remote clickup task_id w
        /\ (Agent.get_clickup_task_by_id remote environ task_id w).2
           = after w (request GET (base +:+ "/task/" +:+ task_id)))
  /\ (forall task_id w,
        Agent.delete_clickup_task remote environ task_id w
        = ClickUpService.delete_task remote clickup task_id w
        /\ (Agent.delete_clickup_task remote environ task_id w).2
           = after w (request DELETE (base +:+ "/task/" +:+ task_id))).
Proof.
  intros Hinit request base.
  repeat split; intros;
    unfold Agent.get_clickup_spaces, Agent.get_clickup_lists,
      Agent.get_clickup_tasks, Agent.get_clickup_task_by_id,
      Agent.delete_clickup_task, Agent.ClickUpService;
    rewrite Hinit, bind_lift_inr, bind_ret_r;
    first [ reflexivity | apply call_world ].
Qed.

Lemma reading_tools_send_one_request_without_body_witness :
  (Agent.get_clickup_tasks Sample.remote Sample.environ "901" Sample.w0).2
  = after Sample.w0
      {| method := GET;
         url := "https://api.clickup.com/api/v2/list/901/task";
         headers := ClickUpService.self_headers Sample.clickup;
         json := None |}.
Proof.
  destruct (reading_tools_send_one_request_without_body Sample.remote
              Sample.environ Sample.clickup eq_refl) as (_ & _ & H & _).
  exact (proj2 (H "901" Sample.w0)).
Defined.

(** ** The updating tool *)

Lemma update_clickup_task_eq remote environ clickup task_id name description
    status priority due_date due_date_time time_estimate start_date
    start_date_time assignees archived assignees_list w :
  ClickUpService.init environ = inr clickup ->
  Agent.loads_if_truthy assignees = inr assignees_list ->
  Agent.update_clickup_task remote environ task_id name description status
    priority due_date due_date_time time_estimate start_date start_date_time
    assignees archived w
  = ClickUpService.call remote clickup PUT
      (ClickUpService.BASE_URL +:+ "/task/" +:+ task_id)
      (Some (ClickUpService.update_task_data name description status
               priority due_date due_date_time time_estimate start_date
               start_date_time assignees_list archived)) w.
Proof.
  intros Hinit Ha.
  unfold Agent.update_clickup_task, Agent.ClickUpService.
  rewrite Hinit, bind_lift_inr, Ha, bind_lift_inr, bind_ret_r.
  destruct due_date_time, start_date_time; reflexivity.
Qed.

(** In a configured process [update_clickup_task] decodes a non-empty
    [assignees] string as JSON. When it does not decode, the tool raises
    the decoder's exception and sends nothing. Otherwise it sends exactly one
    [PUT] to the URL of the task; the payload has a field only for a
    provided argument, and the decoded [assignees] are in it whenever they
    are not [None], so that an empty list is sent as an empty list (where
    [create_clickup_task] leaves it out). *)
Theorem update_tool_decodes_assignees_and_sends_one_put
    remote environ clickup task_id name description status priority due_date
    due_date_time time_estimate start_date start_date_time assignees
    archived :
  ClickUpService.init environ = inr clickup ->
  let tool :=
    Agent.update_clickup_task remote environ task_id name description status
      priority due_date due_date_time time_estimate start_date
      start_date_time assignees archived in
  match Agent.loads_if_truthy assignees with
  | inl e => Spec.fails_with e tool
  | inr assignees_list =>
      Spec.sends_one tool
        (fun req => exists data,
           method req = PUT
           /\ url req = ClickUpService.BASE_URL +:+ "/task/" +:+ task_id
           /\ json req = Some data
           /\ Spec.update_task_fields data name description status priority
                due_date due_date_time time_estimate start_date
                start_date_time assignees_list archived)
  end.
Proof.
  intros Hinit tool.
  destruct (Agent.loads_if_truthy assignees) as [e|al] eqn:Ha.
  - intros w. unfold tool, Agent.update_clickup_task, Agent.ClickUpService.
    rewrite Hinit, bind_lift_inr, Ha. reflexivity.
  - intros w. unfold tool.
    rewrite (update_clickup_task_eq remote environ clickup task_id name
               description status priority due_date due_date_time
               time_estimate start_date start_date_time assignees archived
               al w Hinit Ha).
    eexists. split; [apply call_world|].
    eexists. simpl. do 3 (split; [reflexivity|]).
    apply update_task_data_fields.
Qed.

Lemma update_tool_decodes_assignees_and_sends_one_put_witness :
  Spec.sends_one
    (Agent.update_clickup_task Sample.remote Sample.environ "86et5jp8a"
       None None None None None None None None None (Some "[]") None)
    (fun req => exists data,
       method req = PUT
       /\ url req = "https://api.clickup.com/api/v2/task/86et5jp8a"
       /\ json req = Some data
       /\ Spec.update_task_fields data None None None None None None None
            None None (VList []) None).
Proof.
  exact (update_tool_decodes_assignees_and_sends_one_put Sample.remote
           Sample.environ Sample.clickup "86et5jp8a" None None None None None
           None None None None (Some "[]") None eq_refl).
Defined.

(** The payload of [update_task] is empty exactly when no argument has an
    effect: [name], [description] and [status] are [None] or empty and
    every other argument is [None]. *)
Theorem update_task_payload_empty_iff
    name description status priority due_date due_date_time time_estimate
    start_date start_date_time assignees archived :
  ClickUpService.update_task_data name description status priority due_date
    due_date_time time_estimate start_date start_date_time assignees archived
  = ∅
  <-> opt_truthy str_truthy name = false
      /\ opt_truthy str_truthy description = false
      /\ opt_truthy str_truthy status = false
      /\ priority = None /\ due_date = None /\ due_date_time = None
      /\ time_estimate = None /\ start_date = None
      /\ start_date_time = None /\ assignees = VNone /\ archived = None.
Proof.
  split.
  - intros Hempty.
    destruct (update_task_data_fields name description status priority
                due_date due_date_time time_estimate start_date
                start_date_time assignees archived)
      as (H1 & H2 & H3 & H4 & H5 & H6 & H7 & H8 & H9 & H10 & H11 & _).
    rewrite Hempty, lookup_empty in *.
    repeat split.
    + destruct (opt_truthy str_truthy name) eqn:E; [|reflexivity].
      destruct name; [discriminate H1 | discriminate E].
    + destruct (opt_truthy str_truthy description) eqn:E; [|reflexivity].
      destruct description; [discriminate H2 | discriminate E].
    + destruct (opt_truthy str_truthy status) eqn:E; [|reflexivity].
      destruct status; [discriminate H3 | discriminate E].
    + destruct priority; [discriminate | reflexivity].
    + destruct due_date; [discriminate | reflexivity].
    + destruct due_date_time; [discriminate | reflexivity].
    + destruct time_estimate; [discriminate | reflexivity].
    + destruct start_date; [discriminate | reflexivity].
    + destruct start_date_time; [discriminate | reflexivity].
    + destruct assignees; try discriminate; reflexivity.
    + destruct archived; [discriminate | reflexivity].
  - intros (Hn & Hd & Hs & -> & -> & -> & -> & -> & -> & -> & ->).
    unfold ClickUpService.update_task_data, ClickUpService.set_if_truthy.
    destruct name as [n|]; simpl in Hn; [rewrite Hn|];
      (destruct description as [d|]; simpl in Hd; [rewrite Hd|]);
      (destruct status as [s|]; simpl in Hs; [rewrite Hs|]);
      reflexivity.
Qed.

Lemma update_task_payload_empty_iff_witness :
  ClickUpService.update_task_data (Some "") None (Some "") None None None
    None None None VNone None = ∅.
Proof.
  apply (update_task_payload_empty_iff (Some "") None (Some "") None None
           None None None None VNone None).
  repeat split.
Defined.

(** * Further properties of the turn controller *)

(** ** The local tools offered to the model are the registered ones *)

Lemma local_names_externals (actions : list (gmap string value)) rest :
  Spec.local_names (map Agent.External actions ++ rest)
  = Spec.local_names rest.
Proof.
  unfold Spec.local_names. induction actions as [|a actions IH]; auto.
Qed.

(** Whatever actions the caller supplies, the local tools that the
    reasoning node binds to the model are, by name and in order, the tools
    registered in the dispatch node, and no two of them share a name: a
    call of a local tool that the model can make is always found. *)
Theorem offered_local_tools_are_the_registered_tools
    remote environ state :
  Spec.local_names (Agent.model_with_tools state)
  = map Agent.tool_name (Agent.tools remote environ)
  /\ NoDup (map Agent.tool_name (Agent.tools remote environ))
  /\ forall n,
       n ∈ Spec.local_names (Agent.model_with_tools state) ->
       exists t,
         find (fun t => String.eqb (Agent.tool_name t) n)
           (Agent.tools remote environ) = Some t
         /\ Agent.tool_name t = n.
Proof.
  assert (Hnames : Spec.local_names (Agent.model_with_tools state)
                   = map Agent.tool_name (Agent.tools remote environ)).
  { unfold Agent.model_with_tools. rewrite local_names_externals.
    reflexivity. }
  split; [exact Hnames|]. split.
  - apply (bool_decide_unpack _). vm_compute. exact I.
  - intros n Hn. rewrite Hnames in Hn. simpl in Hn.
    repeat (apply elem_of_cons in Hn as [->|Hn];
            [eexists; split; reflexivity|]).
    by apply elem_of_nil in Hn.
Qed.

Lemma offered_local_tools_are_the_registered_tools_witness :
  exists t,
    find (fun t => String.eqb (Agent.tool_name t) "delete_clickup_task")
      (Agent.tools Sample.remote Sample.environ) = Some t
    /\ Agent.tool_name t = "delete_clickup_task".
Proof.
  apply (proj2 (proj2 (offered_local_tools_are_the_registered_tools
                         Sample.remote Sample.environ
                         Sample.state_with_action))).
  vm_compute. do 5 apply list_elem_of_further. apply list_elem_of_here.
Defined.

(** ** Requests and started operations *)

Lemma quiet_ret {A} (a : A) : Spec.quiet (ret a).
Proof. intros w. reflexivity. Qed.

Lemma quiet_lift {A} (r : exn + A) : Spec.quiet (lift r).
Proof. intros w. reflexivity. Qed.

Lemma quiet_required {A} (dec : value -> option A) args key :
  Spec.quiet (Agent.required dec args key).
Proof.
  intros w. unfold Agent.required.
  destruct (args !! key) as [v|]; [destruct (dec v)|]; reflexivity.
Qed.

Lemma quiet_optional {A} (dec : value -> option A) dflt args key :
  Spec.quiet (Agent.optional dec dflt args key).
Proof.
  intros w. unfold Agent.optional.
  destruct (args !! key) as [v|]; [|reflexivity].
  destruct v; try reflexivity; destruct (dec _); reflexivity.
Qed.

Lemma quiet_ClickUpService environ : Spec.quiet (Agent.ClickUpService environ).
Proof. apply quiet_lift. Qed.

Lemma at_most_one_request_bind_quiet {A B} (c : M A) (k : A -> M B) :
  Spec.quiet c ->
  (forall a, Spec.at_most_one_request (k a)) ->
  Spec.at_most_one_request (x <- c ;; k x).
Proof.
  intros Hc Hk w. unfold bind. specialize (Hc w).
  destruct (c w) as [[e|a] w']; simpl in Hc; subst w'.
  - simpl. auto.
  - apply Hk.
Qed.

Lemma at_most_one_request_bind_ret {A} (c : M A) :
  Spec.at_most_one_request c -> Spec.at_most_one_request (x <- c ;; ret x).
Proof. intros Hc w. rewrite bind_ret_r. apply Hc. Qed.

Lemma at_most_one_request_call remote self m u body :
  Spec.at_most_one_request (ClickUpService.call remote self m u body).
Proof. intros w. rewrite call_world. simpl. eauto. Qed.

Ltac one_request :=
  repeat first
    [ apply at_most_one_request_call
    | apply at_most_one_request_bind_ret
    | apply at_most_one_request_bind_quiet;
        [ first [ apply quiet_ClickUpService | apply quiet_lift
                | apply quiet_required | apply quiet_optional ]
        | intros ? ] ].

Lemma every_tool_at_most_one_request remote environ :
  Spec.every_tool remote environ Spec.at_most_one_request.
Proof.
  unfold Spec.every_tool.
  repeat split; intros;
    unfold Agent.get_clickup_spaces, Agent.get_clickup_lists,
      Agent.get_clickup_tasks, Agent.create_clickup_task,
      Agent.update_clickup_task, Agent.delete_clickup_task,
      Agent.get_clickup_task_by_id, Agent.set_clickup_custom_field_value,
      ClickUpService.get_spaces, ClickUpService.get_lists,
      ClickUpService.get_tasks, ClickUpService.create_task,
      ClickUpService.update_task, ClickUpService.delete_task,
      ClickUpService.get_task_by_id, ClickUpService.set_custom_field_value;
    one_request.
Qed.

Lemma registered_tools_at_most_one_request remote environ :
  Forall (fun t => forall args, Spec.at_most_one_request (Agent.invoke t args))
    (Agent.tools remote environ).
Proof.
  destruct (every_tool_at_most_one_request remote environ)
    as (H1 & H2 & H3 & H4 & H5 & H6 & H7 & H8).
  unfold Agent.tools.
  repeat (apply Forall_cons; split; [intros args; simpl; one_request; auto|]).
  apply Forall_nil_2.
Qed.

Lemma accounted_refl w : Spec.accounted w w.
Proof. exists [], []. rewrite !app_nil_r. auto. Qed.

Lemma accounted_trans w1 w2 w3 :
  Spec.accounted w1 w2 -> Spec.accounted w2 w3 -> Spec.accounted w1 w3.
Proof.
  intros (r1 & c1 & Hs1 & Hi1 & Hl1) (r2 & c2 & Hs2 & Hi2 & Hl2).
  exists (r1 ++ r2)%list, (c1 ++ c2)%list.
  rewrite Hs2, Hs1, Hi2, Hi1, !app_assoc, !length_app.
  repeat split. lia.
Qed.

Lemma run_one_accounted registry call w :
  Forall (fun t => forall args, Spec.at_most_one_request (Agent.invoke t args))
    registry ->
  Spec.accounted w (Agent.run_one registry call w).2.
Proof.
  intros Hreg. unfold Agent.run_one.
  destruct (find _ registry) as [t|] eqn:Hfind; [|apply accounted_refl].
  apply find_some in Hfind as [Hin _].
  rewrite Forall_forall in Hreg.
  specialize (Hreg t (proj2 (list_elem_of_In _ _) Hin) (Agent.args call)
                (Agent.note_invoked call w)).
  destruct (Agent.invoke t _ _) as [r w']. simpl in *.
  destruct Hreg as [Hi [Hs | [req Hs]]].
  - exists [], [(Agent.name call, Agent.args call)].
    rewrite Hi, Hs, app_nil_r. simpl. auto.
  - exists [req], [(Agent.name call, Agent.args call)].
    rewrite Hi, Hs. simpl. auto.
Qed.

Lemma run_all_accounted registry calls :
  Forall (fun t => forall args, Spec.at_most_one_request (Agent.invoke t args))
    registry ->
  forall w, Spec.accounted w (Agent.run_all registry calls w).2.
Proof.
  intros Hreg. induction calls as [|call rest IH]; intros w; simpl.
  - apply accounted_refl.
  - pose proof (run_one_accounted registry call w Hreg) as H1.
    destruct (run_one_total registry call w) as (m & w1 & Hr1).
    unfold bind. rewrite Hr1 in *. simpl in H1.
    specialize (IH w1).
    destruct (Agent.run_all registry rest w1) as [[e|ms] w2]; simpl in *;
      eapply accounted_trans; eauto.
Qed.

Lemma ToolNode_accounted registry state w :
  Forall (fun t => forall args, Spec.at_most_one_request (Agent.invoke t args))
    registry ->
  Spec.accounted w (Agent.ToolNode registry state w).2.
Proof.
  intros Hreg. unfold Agent.ToolNode.
  destruct (last (Agent.messages state)) as [[c|c|c calls|r t i]|];
    try apply accounted_refl.
  pose proof (run_all_accounted registry calls Hreg w) as Ha.
  unfold bind. destruct (Agent.run_all registry calls w) as [[e|ms] w'];
    exact Ha.
Qed.

Lemma chat_node_quiet ainvoke state : Spec.quiet (Agent.chat_node ainvoke state).
Proof.
  intros w. destruct (Agent.reasoning ainvoke state) as [e|response] eqn:Hr.
  - by rewrite (chat_node_raises ainvoke state e w Hr).
  - by rewrite (chat_node_eq ainvoke state response w Hr).
Qed.

Lemma run_accounted remote environ ainvoke limit :
  forall node state seen w,
    Spec.accounted w (Agent.run remote environ ainvoke limit node state seen w).2.
Proof.
  induction limit as [|limit IH]; intros node state seen w; simpl.
  - destruct (String.eqb node "__end__"); apply accounted_refl.
  - destruct (String.eqb node "__end__"); [apply accounted_refl|].
    destruct (String.eqb node "chat_node").
    { pose proof (chat_node_quiet ainvoke state w) as Hq.
      destruct (Agent.chat_node ainvoke state w) as [[e|cmd] w'];
        simpl in Hq; subst w'; [apply accounted_refl | apply IH]. }
    destruct (String.eqb node "tool_node"); [|apply accounted_refl].
    pose proof (ToolNode_accounted (Agent.tools remote environ) state w
                  (registered_tools_at_most_one_request remote environ))
      as Ht.
    destruct (Agent.ToolNode _ state w) as [[e|u] w']; simpl in Ht;
      [exact Ht|].
    eapply accounted_trans; [exact Ht | apply IH].
Qed.

(** In every turn, however it ends, the HTTP requests are accounted for by
    the local operations that were started: the requests sent and the
    operations started before the turn are still the beginning of the two
    logs, and the turn sent at most one request for each operation it
    started. The reasoning node sends nothing. *)
Theorem requests_of_a_turn_are_accounted_for
    remote environ ainvoke limit state w :
  Spec.accounted w (Agent.graph remote environ ainvoke limit state w).2
  /\ Spec.quiet (Agent.chat_node ainvoke state)
  /\ Spec.every_tool remote environ Spec.at_most_one_request.
Proof.
  split; [apply run_accounted|].
  split; [apply chat_node_quiet | apply every_tool_at_most_one_request].
Qed.

(** ** The shape of a turn *)

Lemma next_node_cases state response :
  Spec.next_node state response = "__end__"
  \/ (Spec.next_node state response = "tool_node"
      /\ exists content calls, response = Agent.AIMessage content calls).
Proof.
  unfold Spec.next_node.
  destruct response as [c|c|c [|first rest]|r t i]; simpl; auto.
  destruct (existsb _ _); eauto.
Qed.

Lemma last_apply_update state response :
  last (Agent.messages
          (Agent.apply_update state
             {[ "messages" := Agent.SMessages [response] ]}))
  = Some response.
Proof. rewrite apply_update_messages. apply last_snoc. Qed.

Section Turn.

Variable remote : list Request -> Request -> exn + Response.
Variable environ : gmap string string.
Variable ainvoke : list Agent.BoundTool -> list Agent.Message
                   -> exn + Agent.Message.

Local Abbreviation run := (Agent.run remote environ ainvoke).

(** Only the model's error ends a run with an exception. *)
Lemma run_raised limit :
  forall node state seen w e,
    node = "chat_node"
    \/ (node = "tool_node"
        /\ exists content calls,
             last (Agent.messages state)
             = Some (Agent.AIMessage content calls)) ->
    Agent.outcome (run limit node state seen w).1 = Agent.Raised e ->
    exists s, Agent.reasoning ainvoke s = inl e.
Proof.
  induction limit as [|limit IH]; intros node state seen w e Hnode.
  - destruct Hnode as [-> | [-> _]]; simpl; discriminate.
  - destruct Hnode as [-> | [-> (c & calls & Hlast)]].
    + rewrite run_chat_node.
      destruct (Agent.reasoning ainvoke state) as [e'|response] eqn:Hr.
      * rewrite (chat_node_raises ainvoke state e' w Hr). simpl.
        intros [= <-]. eauto.
      * rewrite (chat_node_eq ainvoke state response w Hr). simpl.
        destruct (next_node_cases state response)
          as [-> | [-> (c & calls & ->)]].
        { rewrite run_end. simpl. discriminate. }
        apply IH. right. split; [reflexivity|].
        exists c, calls. apply last_apply_update.
    + rewrite run_tool_node.
      destruct (ToolNode_total (Agent.tools remote environ) state c calls w
                  Hlast) as (outputs & w' & -> & _).
      apply IH. by left.
Qed.

(** A run that ran into the limit executed that many nodes. *)
Lemma run_recursion_error limit :
  forall node state seen w,
    Agent.outcome (run limit node state seen w).1 = Agent.GraphRecursionError ->
    length (Agent.visited (run limit node state seen w).1)
    = (length seen + limit)%nat.
Proof.
  induction limit as [|limit IH]; intros node state seen w; simpl.
  - destruct (String.eqb node "__end__"); simpl; [discriminate|].
    intros _. lia.
  - destruct (String.eqb node "__end__"); simpl; [discriminate|].
    destruct (String.eqb node "chat_node").
    { destruct (Agent.chat_node ainvoke state w) as [[e|cmd] w'];
        [simpl; discriminate|].
      intros Hf. rewrite (IH _ _ _ _ Hf), length_app. simpl. lia. }
    destruct (String.eqb node "tool_node"); [|simpl; discriminate].
    destruct (Agent.ToolNode _ state w) as [[e|u] w'];
      [simpl; discriminate|].
    intros Hf. rewrite (IH _ _ _ _ Hf), length_app. simpl. lia.
Qed.

(** The nodes a finished run went through. *)
Lemma run_visited limit :
  forall state seen w final,
    (Agent.outcome (run limit "chat_node" state seen w).1
     = Agent.Finished final ->
     exists k,
       Agent.visited (run limit "chat_node" state seen w).1
       = (seen ++ Spec.rounds k ++ ["chat_node"])%list)
    /\ (Agent.outcome (run limit "tool_node" state seen w).1
        = Agent.Finished final ->
        exists k,
          Agent.visited (run limit "tool_node" state seen w).1
          = (seen ++ "tool_node" :: Spec.rounds k ++ ["chat_node"])%list).
Proof.
  induction limit as [|limit IH]; intros state seen w final.
  - split; simpl; discriminate.
  - split.
    + rewrite run_chat_node.
      destruct (Agent.reasoning ainvoke state) as [e'|response] eqn:Hr.
      * rewrite (chat_node_raises ainvoke state e' w Hr). discriminate.
      * rewrite (chat_node_eq ainvoke state response w Hr). simpl.
        destruct (next_node_cases state response) as [-> | [-> _]].
        { rewrite run_end. simpl. intros _. by exists 0%nat. }
        intros Hf. apply (proj2 (IH _ _ _ _)) in Hf as [k Hk].
        exists (S k). rewrite Hk, <- app_assoc. reflexivity.
    + rewrite run_tool_node.
      destruct (Agent.ToolNode _ state w) as [[e|u] w']; [discriminate|].
      intros Hf. apply (proj1 (IH _ _ _ _)) in Hf as [k Hk].
      exists k. rewrite Hk, <- app_assoc. reflexivity.
Qed.

Lemma count_rounds k :
  length (List.filter (String.eqb "chat_node")
            (Spec.rounds k ++ ["chat_node"])) = S k
  /\ length (List.filter (String.eqb "tool_node")
               (Spec.rounds k ++ ["chat_node"])) = k.
Proof.
  induction k as [|k [IH1 IH2]]; [split; reflexivity|].
  change (Spec.rounds (S k) ++ ["chat_node"])%list
    with ("chat_node" :: "tool_node" :: (Spec.rounds k ++ ["chat_node"]))%list.
  split.
  - change (S (length (List.filter (String.eqb "chat_node")
                         (Spec.rounds k ++ ["chat_node"]))) = S (S k)).
    by rewrite IH1.
  - change (S (length (List.filter (String.eqb "tool_node")
                         (Spec.rounds k ++ ["chat_node"]))) = S k).
    by rewrite IH2.
Qed.


End Turn.

(** A turn of a model whose tool calls carry identifiers ends in one of
    three ways: finished; with the recursion error of the graph, after as
    many node executions as the limit allows; or with the exception of a
    failed call of the model. An error of a tool, of the client or of the
    remote service is answered by a tool message and ends no turn. A
    failure of the first call of the model ends the turn at once, with
    nothing sent. *)
Theorem turn_ends_finished_or_at_the_limit_or_by_a_model_failure
    remote environ ainvoke limit state w :
  Spec.calls_have_ids ainvoke ->
  let result := Agent.graph remote environ ainvoke limit state w in
  ((exists final, Agent.outcome result.1 = Agent.Finished final)
   \/ (Agent.outcome result.1 = Agent.GraphRecursionError
       /\ length (Agent.visited result.1) = limit)
   \/ (exists e s,
         Agent.outcome result.1 = Agent.Raised e
         /\ Agent.reasoning ainvoke s = inl e))
  /\ forall e,
       Agent.reasoning ainvoke state = inl e ->
       limit ≠ 0%nat ->
       result
       = ({| Agent.outcome := Agent.Raised e;
             Agent.visited := ["chat_node"] |}, w).
Proof.
  intros _ result. split.
  - destruct (Agent.outcome result.1) as [final|e|] eqn:Ho.
    + left. eauto.
    + right. right. exists e.
      destruct (run_raised remote environ ainvoke limit "chat_node" state []
                  w e) as [s Hs]; [by left | exact Ho |].
      eauto.
    + right. left. split; [reflexivity|].
      apply (run_recursion_error remote environ ainvoke limit "chat_node"
               state [] w Ho).
  - intros e Hr Hlimit. destruct limit as [|limit]; [done|].
    unfold result, Agent.graph.
    by rewrite run_chat_node, (chat_node_raises ainvoke state e w Hr).
Qed.

Lemma turn_ends_finished_or_at_the_limit_or_by_a_model_failure_witness :
  let result :=
    Agent.graph Sample.remote Sample.environ Sample.asks_then_fails 25
      Sample.state Sample.w0 in
  (exists final, Agent.outcome result.1 = Agent.Finished final)
  \/ (Agent.outcome result.1 = Agent.GraphRecursionError
      /\ length (Agent.visited result.1) = 25%nat)
  \/ (exists e s,
        Agent.outcome result.1 = Agent.Raised e
        /\ Agent.reasoning Sample.asks_then_fails s = inl e).
Proof.
  apply (turn_ends_finished_or_at_the_limit_or_by_a_model_failure
           Sample.remote Sample.environ Sample.asks_then_fails 25
           Sample.state Sample.w0).
  intros bound prompt content calls. unfold Sample.asks_then_fails.
  destruct (last prompt) as [[c|c|c l|r t i]|]; intros [= _ <-];
    repeat constructor; by eexists.
Defined.

(** A finished turn went through the reasoning node, then through some
    number of rounds of dispatch node and reasoning node, and ended after
    the reasoning node: it has exactly one more reasoning step than
    dispatch steps. *)
Theorem finished_turn_alternates_reasoning_and_dispatch
    remote environ ainvoke limit state w final :
  let result := (Agent.graph remote environ ainvoke limit state w).1 in
  Agent.outcome result = Agent.Finished final ->
  exists k,
    Agent.visited result = (Spec.rounds k ++ ["chat_node"])%list
    /\ Agent.count_node "chat_node" result = S k
    /\ Agent.count_node "tool_node" result = k.
Proof.
  intros result Hf. unfold result, Agent.graph in *.
  apply (proj1 (run_visited remote environ ainvoke limit state [] w final))
    in Hf as [k Hk].
  exists k. split; [exact Hk|]. unfold Agent.count_node. rewrite Hk.
  apply count_rounds.
Qed.

Lemma finished_turn_alternates_reasoning_and_dispatch_witness :
  exists k,
    Agent.visited
      (Agent.graph Sample.remote Sample.environ
         (Sample.asks [Sample.call_spaces]) 25 Sample.state Sample.w0).1
    = (Spec.rounds k ++ ["chat_node"])%list
    /\ Agent.count_node "chat_node"
         (Agent.graph Sample.remote Sample.environ
            (Sample.asks [Sample.call_spaces]) 25 Sample.state Sample.w0).1
       = S k
    /\ Agent.count_node "tool_node"
         (Agent.graph Sample.remote Sample.environ
            (Sample.asks [Sample.call_spaces]) 25 Sample.state Sample.w0).1
       = k.
Proof.
  eapply (finished_turn_alternates_reasoning_and_dispatch Sample.remote
            Sample.environ (Sample.asks [Sample.call_spaces]) 25
            Sample.state Sample.w0).
  vm_compute. reflexivity.
Defined.



(** ** Errors of the remote service in the dispatch node *)

(** In a configured process, a [get_clickup_tasks] call that the remote
    service answers with a status from 400 to 599 does not raise in the
    dispatch node: the call is answered by a tool message that carries
    [HTTPError] with that status, after exactly one [GET] request for the
    tasks of the list. *)
Theorem remote_error_becomes_tool_message
    remote environ clickup list_id cid w r :
  ClickUpService.init environ = inr clickup ->
  let call :=
    {| Agent.name := "get_clickup_tasks";
       Agent.args := {[ "list_id" := VStr list_id ]};
       Agent.id := cid |} in
  let req :=
    {| method := GET;
       url := ClickUpService.BASE_URL +:+ "/list/" +:+ list_id +:+ "/task";
       headers := ClickUpService.self_headers clickup;
       json := None |} in
  remote (sent w) req = inr r ->
  400 <= status_code r < 600 ->
  Agent.run_one (Agent.tools remote environ) call w
  = (inr (Agent.ToolMessage (inl (HTTPError (status_code r)))
            "get_clickup_tasks" cid),
     after (Agent.note_invoked call w) req).
Proof.
  intros Hinit call req Hr Hstatus. unfold Agent.run_one. simpl.
  erewrite (bind_required Agent.as_str _ "list_id");
    [| by simplify_map_eq | reflexivity].
  unfold Agent.get_clickup_tasks, Agent.ClickUpService.
  rewrite Hinit, bind_lift_inr, bind_ret_r.
  unfold ClickUpService.get_tasks, ClickUpService.call, ClickUpService.send,
    bind. simpl. fold req. rewrite Hr.
  unfold ClickUpService.raise_for_status.
  replace ((400 <=? status_code r) && (status_code r <? 600)) with true
    by (symmetry; apply andb_true_iff; split;
        [apply Z.leb_le | apply Z.ltb_lt]; lia).
  reflexivity.
Qed.

Lemma remote_error_becomes_tool_message_witness :
  let remote := fun (_ : list Request) (_ : Request) =>
                  inr {| status_code := 404; text := "Not found" |}
                  : exn + Response in
  exists req,
    Agent.run_one (Agent.tools remote Sample.environ)
      {| Agent.name := "get_clickup_tasks";
         Agent.args := {[ "list_id" := VStr "901" ]};
         Agent.id := Some "call_7" |} Sample.w0
    = (inr (Agent.ToolMessage (inl (HTTPError 404)) "get_clickup_tasks"
              (Some "call_7")),
       {| sent := [req];
          invoked := [("get_clickup_tasks", {[ "list_id" := VStr "901" ]})] |}).
Proof.
  intros remote. eexists.
  apply (remote_error_becomes_tool_message remote Sample.environ
           Sample.clickup "901" (Some "call_7") Sample.w0
           {| status_code := 404; text := "Not found" |} eq_refl eq_refl).
  simpl. lia.
Defined.

(** ** What the creating tool never sends *)

(** In a configured process the request of [create_clickup_task] is a
    [POST] to the URL of the list, and its payload never has the
    [custom_fields] field that the client could send, nor any field other
    than the eleven of the tool's arguments. *)
Theorem create_tool_never_sends_custom_fields
    remote environ clickup list_id name description due_date priority
    due_date_time time_estimate start_date start_date_time assignees tags
    status assignees_list tags_list :
  ClickUpService.init environ = inr clickup ->
  Agent.loads_if_truthy assignees = inr assignees_list ->
  Agent.loads_if_truthy tags = inr tags_list ->
  Spec.sends_one
    (Agent.create_clickup_task remote environ list_id name description
       due_date priority due_date_time time_estimate start_date
       start_date_time assignees tags status)
    (fun req => exists data,
       method req = POST
       /\ url req
          = ClickUpService.BASE_URL +:+ "/list/" +:+ list_id +:+ "/task"
       /\ json req = Some data
       /\ data !! "custom_fields" = None
       /\ dom data ⊆ {[ "name"; "due_date_time"; "start_date_time";
                        "description"; "due_date"; "priority";
                        "time_estimate"; "start_date"; "assignees"; "tags";
                        "status" ]}).
Proof.
  intros Hinit Ha Ht w.
  rewrite (create_clickup_task_eq remote environ clickup list_id name
             description due_date priority due_date_time time_estimate
             start_date start_date_time assignees tags status assignees_list
             tags_list w Hinit Ha Ht).
  eexists. split; [apply call_world|].
  eexists. simpl. do 3 (split; [reflexivity|]).
  split.
  - by rewrite create_task_data_custom_fields.
  - unfold ClickUpService.create_task_data.
    unfold ClickUpService.set_value_if_truthy at 1. simpl truthy.
    payload_dom.
Qed.

Lemma create_tool_never_sends_custom_fields_witness :
  Spec.sends_one
    (Agent.create_clickup_task Sample.remote Sample.environ "901"
       "Write report" None None None None None None None None None None)
    (fun req => exists data,
       method req = POST
       /\ url req = "https://api.clickup.com/api/v2/list/901/task"
       /\ json req = Some data
       /\ data !! "custom_fields" = None
       /\ dom data ⊆ {[ "name"; "due_date_time"; "start_date_time";
                        "description"; "due_date"; "priority";
                        "time_estimate"; "start_date"; "assignees"; "tags";
                        "status" ]}).
Proof.
  exact (create_tool_never_sends_custom_fields Sample.remote Sample.environ
           Sample.clickup "901" "Write report" None None None None None None
           None None None None VNone VNone eq_refl eq_refl eq_refl).
Defined.
